(** * hanu: the bot's dispatch engine

    A shallow embedding of [main.go] (the [Bot] type, the handshake, the
    per-message dispatcher, the command and listener passes, the help reply
    and the receive loop) and of the listener file (the [Listener] struct and
    its constructor).

    Effects are made explicit.  Everything the dispatcher does to the outside
    world (starting a goroutine for a handler, sending a frame, printing a log
    line) is recorded, in program order, in a trace of [Event]s.  A run-time
    panic ends the run and keeps the trace produced so far. *)

From Stdlib Require Import String Ascii List Bool ZArith DecimalString.
Import ListNotations.
Local Open Scope string_scope.
Local Open Scope list_scope.

Set Implicit Arguments.

(** ** Go strings *)

(** [s != ""] *)
Definition nonempty (s : string) : bool :=
  match s with
  | EmptyString => false
  | String _ _ => true
  end.

(** ** Collaborators outside [main.go]

    The packages the bot is linked against are taken as interfaces: the code
    is verified for every implementation of them. *)

(** The [Message] type.  [main.go] reads the field [msg.Message] and calls
    the methods below; methods with a pointer receiver return the updated
    message. *)
Class MessageAPI := {
  Message : Type;
  (** the field [Message] *)
  Message_field : Message -> string;
  (** [Message{}] *)
  Message_zero : Message;
  Text : Message -> string;
  SetText : string -> Message -> Message;
  User : Message -> string;
  IsDirectMessage : Message -> bool;
  IsBotMessage : string -> string -> Message -> bool;
  StripMention : string -> Message -> Message;
  StripLinkMarkup : Message -> Message;
  StripPrefix : string -> Message -> Message;
  IsHelpRequest : Message -> bool
}.

(** Package [regexp]: [Compile] returns a nil [*Regexp] together with an error
    for a string that is not a regular expression ([None] here).
    [matches r m] says that the whole of [m] is a match of [r]. *)
Class RegexpAPI := {
  Regexp : Type;
  regexp_Compile : string -> option Regexp;
  matches : Regexp -> string -> Prop;
  MatchString : Regexp -> string -> bool
}.

(** The negotiation response, as [json.Unmarshal] fills it. *)
Record handshakeResponseSelf : Type := {
  Self_ID : string
}.

Record handshakeResponse : Type := {
  Ok : bool;
  Error : string;
  URL : string;
  Self : handshakeResponseSelf
}.

(** [*http.Response]: the status code, and what [ioutil.ReadAll(res.Body)]
    returns ([None] for an error). *)
Record Response : Type := {
  StatusCode : Z;
  Body : option string
}.

(** Packages [net/http], [encoding/json] and [websocket]; [None] stands for
    a non-nil error. *)
Class NetAPI := {
  Conn : Type;
  http_Get : string -> option Response;
  json_Unmarshal : string -> option handshakeResponse;
  websocket_Dial : string -> string -> string -> option Conn
}.

(** [error] values, by their message. *)
Definition error : Type := string.

Definition errors_New (text : string) : error := text.

(** The [%d] verb of package [fmt]. *)
Definition fmt_d (n : Z) : string := NilZero.string_of_int (Z.to_int n).

(** The line feed, written [\n] in the source. *)
Definition nl : string := String "010"%char EmptyString.

(** ** Outcomes of a run: a trace, and a value unless the run panicked *)

Inductive Outcome (E A : Type) : Type :=
| Returned (tr : list E) (a : A)
| Panicked (tr : list E).

Arguments Returned {E A} tr a.
Arguments Panicked {E A} tr.

Definition ret {E A} (a : A) : Outcome E A := Returned [] a.

Definition emit {E} (es : list E) : Outcome E unit := Returned es tt.

Definition panic {E A} : Outcome E A := Panicked [].

Definition bind {E A B} (m : Outcome E A) (k : A -> Outcome E B) : Outcome E B :=
  match m with
  | Returned tr a =>
      match k a with
      | Returned tr' b => Returned (tr ++ tr') b
      | Panicked tr' => Panicked (tr ++ tr')
      end
  | Panicked tr => Panicked tr
  end.

Declare Scope outcome_scope.
Delimit Scope outcome_scope with outcome.
Notation "x <- m ;; k" := (bind m (fun x => k))
  (at level 61, m at next level, right associativity) : outcome_scope.
Notation "m ;;; k" := (bind m (fun _ => k))
  (at level 61, right associativity) : outcome_scope.

Definition trace_of {E A} (m : Outcome E A) : list E :=
  match m with
  | Returned tr _ => tr
  | Panicked tr => tr
  end.

Definition value_of {E A} (m : Outcome E A) : option A :=
  match m with
  | Returned _ a => Some a
  | Panicked _ => None
  end.

Section Hanu.

Context {MA : MessageAPI} {RA : RegexpAPI} {NA : NetAPI}.

(** Function values of type [Handler] and [ListenerHandler]. *)
Variable Handler : Type.
Variable ListenerHandler : Type.
(** The match a command pattern returns for a text. *)
Variable MatchInterface : Type.

(** Modelled from the spec: the constructors [NewConversation] and
    [NewListenerConversation] are not in the available sources.  A
    conversation holds the originating message, the match result
    (command conversations only) and a reference to the shared connection;
    the two constructors are kept as free constructors of one type, the
    [ConversationInterface] that both [Handle] methods take. *)
Inductive ConversationInterface : Type :=
| NewConversation (match_ : MatchInterface) (msg : Message) (socket : option Conn)
| NewListenerConversation (msg : Message) (socket : option Conn).

(** What the dispatcher does to the outside world.  A nil pointer and a nil
    function value are [None]. *)
Inductive Event : Type :=
| GoHandler (h : Handler) (conv : ConversationInterface)
| GoListenerHandler (h : option ListenerHandler) (conv : ConversationInterface)
| JSONSend (socket : option Conn) (msg : Message)
| LogPrintf (line : string)
| HTTPGet (url : string)
| WebsocketDial (url protocol origin : string).

(** *** The listener file *)

(** [type ListenerInterface interface { Get() string; Handle(conv) }] *)
Record ListenerInterface : Type := {
  lst_Get : string;
  lst_Handle : ConversationInterface -> list Event
}.

(** [type Listener struct { regex string; handler ListenerHandler }] *)
Record Listener : Type := mkListener {
  regex : string;
  handler : option ListenerHandler
}.

(** [Listener{}] *)
Definition Listener_zero : Listener := {| regex := ""; handler := None |}.

Definition Listener_SetHandler (h : ListenerHandler) (c : Listener) : Listener :=
  {| regex := regex c; handler := Some h |}.

(** [go c.handler(conv)] *)
Definition Listener_Handle (c : Listener) (conv : ConversationInterface) : list Event :=
  [GoListenerHandler (handler c) conv].

Definition Listener_Get (c : Listener) : string := regex c.

Definition Listener_Set (cmd : string) (c : Listener) : Listener :=
  {| regex := cmd; handler := handler c |}.

Definition NewListener (regex : string) (h : ListenerHandler) : Listener :=
  let cmd := Listener_zero in
  let cmd := Listener_Set regex cmd in
  let cmd := Listener_SetHandler h cmd in
  cmd.

(** A [Listener] used as a [ListenerInterface]. *)
Definition Listener_interface (c : Listener) : ListenerInterface :=
  {| lst_Get := Listener_Get c; lst_Handle := Listener_Handle c |}.

(** *** [main.go] *)

(** Modelled from the spec: the interface [CommandInterface] is declared in a
    file that is not among the available sources.  [main.go] calls
    [Get().Match(text)] (a match and a nil error, or an error: [None]),
    [Get().Text()], [Description()] and [Handle(conv)] on it. *)
Record CommandInterface : Type := {
  cmd_Match : string -> option MatchInterface;
  cmd_Text : string;
  Description : string;
  cmd_Handle : ConversationInterface -> list Event
}.

(** How a pattern matches a text (the pattern library behind
    [NewCommand]). *)
Variable pattern_Match : string -> string -> option MatchInterface.

(** Modelled from the spec: the constructor [NewCommand] is not among the
    available sources.  A command is a pattern, a description and a handler,
    immutable after construction; its pattern is rendered literally in the
    help, and its handler is invoked asynchronously with the conversation. *)
Definition NewCommand (cmd description : string) (h : Handler) : CommandInterface :=
  {| cmd_Match := pattern_Match cmd;
     cmd_Text := cmd;
     Description := description;
     cmd_Handle := fun conv => [GoHandler h conv] |}.

(** [type Bot struct] *)
Record Bot : Type := mkBot {
  Socket : option Conn;
  Token : string;
  ID : string;
  Commands : list CommandInterface;
  Listeners : list ListenerInterface;
  Prefix : string
}.

Definition SetPrefix (prefix : string) (b : Bot) : Bot :=
  mkBot (Socket b) (Token b) (ID b) (Commands b) (Listeners b) prefix.

Definition set_ID (id : string) (b : Bot) : Bot :=
  mkBot (Socket b) (Token b) id (Commands b) (Listeners b) (Prefix b).

Definition set_Socket (socket : option Conn) (b : Bot) : Bot :=
  mkBot socket (Token b) (ID b) (Commands b) (Listeners b) (Prefix b).

Definition rtm_start (token : string) : string :=
  "https://slack.com/api/rtm.start?token=" ++ token.

(** [Handshake]: the trace, the receiver after the call, and the error
    ([None] for nil).  The [*Bot] it returns is the receiver when the error
    is nil and nil otherwise. *)
Definition Handshake (b : Bot) : list Event * Bot * option error :=
  let get := HTTPGet (rtm_start (Token b)) in
  match http_Get (rtm_start (Token b)) with
  | None => ([get], b, Some (errors_New "Failed to connect to Slack RTM API"))
  | Some res =>
    if negb (StatusCode res =? 200)%Z then
      ([get], b, Some ("Failed with HTTP Code: " ++ fmt_d (StatusCode res))%string)
    else
      match Body res with
      | None => ([get], b, Some "Failed to read body from response")
      | Some body =>
        match json_Unmarshal body with
        | None => ([get], b, Some ("Failed to unmarshal JSON: " ++ body)%string)
        | Some response =>
          if negb (Ok response) then
            ([get], b, Some (errors_New (Error response)))
          else
            let b := set_ID (Self_ID (Self response)) b in
            let dial := WebsocketDial (URL response) "" "https://api.slack.com/" in
            match websocket_Dial (URL response) "" "https://api.slack.com/" with
            | None =>
              ([get; dial], set_Socket None b,
               Some (errors_New "Failed to connect to Websocket"))
            | Some socket => ([get; dial], set_Socket (Some socket) b, None)
            end
        end
      end
  end.

(** [New]: the trace, the bot (nil: [None]) and the error (nil: [None]). *)
Definition New (token : string) : list Event * (option Bot * option error) :=
  let bot := mkBot None token "" [] [] "!" in
  match Handshake bot with
  | (tr, b, None) => (tr, (Some b, None))
  | (tr, _, Some err) => (tr, (None, Some err))
  end.

Local Open Scope outcome_scope.

Fixpoint searchCommand_from (b : Bot) (msg : Message)
    (cmds : list CommandInterface) (c : bool) : Outcome Event bool :=
  match cmds with
  | [] => ret c
  | cmd :: rest =>
    match cmd_Match cmd (Text msg) with
    | Some match_ =>
      emit (cmd_Handle cmd (NewConversation match_ msg (Socket b))) ;;;
      searchCommand_from b msg rest true
    | None => searchCommand_from b msg rest c
    end
  end.

Definition searchCommand (b : Bot) (msg : Message) : Outcome Event bool :=
  searchCommand_from b msg (Commands b) false.

Definition listener_log (msg : Message) : string :=
  "Listener Matched: " ++ Message_field msg ++ nl.

Fixpoint searchListener_from (b : Bot) (msg : Message)
    (lsts : list ListenerInterface) (l : bool) : Outcome Event bool :=
  match lsts with
  | [] => ret l
  | lst :: rest =>
    match regexp_Compile (lst_Get lst) with
    | None => panic
    | Some r =>
      if MatchString r (Message_field msg) then
        emit [LogPrintf (listener_log msg)] ;;;
        emit (lst_Handle lst (NewListenerConversation msg (Socket b))) ;;;
        searchListener_from b msg rest true
      else searchListener_from b msg rest l
    end
  end.

Definition searchListener (b : Bot) (msg : Message) : Outcome Event bool :=
  searchListener_from b msg (Listeners b) false.

Definition help_intro : string :=
  "I can support you with those features:" ++ nl ++ nl.

Definition sendHelp (b : Bot) (msg : Message) : Outcome Event unit :=
  let help := help_intro in
  let help :=
    fold_left
      (fun help cmd =>
         let help := (help ++ "`" ++ cmd_Text cmd ++ "`")%string in
         let help :=
           if nonempty (Description cmd)
           then (help ++ " *–* " ++ Description cmd)%string
           else help in
         (help ++ nl)%string)
      (Commands b) help in
  let help :=
    if negb (IsDirectMessage msg)
    then ("<@" ++ User msg ++ ">: " ++ help)%string
    else help in
  let msg := SetText help msg in
  emit [JSONSend (Socket b) msg].

Definition process (b : Bot) (message : Message) : Outcome Event unit :=
  if IsBotMessage (Prefix b) (ID b) message then
    let message := StripMention (ID b) message in
    let message := StripLinkMarkup message in
    let message := StripPrefix (Prefix b) message in
    if IsHelpRequest message then
      sendHelp b message
    else
      c <- searchCommand b message ;;
      if c then ret tt
      else (_ <- searchListener b message ;; ret tt)
  else
    (_ <- searchListener b message ;; ret tt).

(** One call of [websocket.JSON.Receive(b.Socket, &msg)]: what it leaves in
    [msg], given what [msg] held, and whether the error it returns is nil. *)
Record Receive : Type := {
  received : Message -> Message;
  err_is_nil : bool
}.

(** What a loop body does next. *)
Inductive Control (S : Type) : Type :=
| Continue (s : S)
| Break (s : S).

(** [go b.process(msg)] *)
Inductive Spawned : Type :=
| GoProcess (b : Bot) (msg : Message).

(** The variables of [Listen]: [msg], and the goroutines started so far. *)
Record ListenState : Type := {
  ls_msg : Message;
  ls_started : list Spawned
}.

Definition Listen_body (b : Bot) (r : Receive) (st : ListenState)
    : Control ListenState :=
  let msg := received r (ls_msg st) in
  if err_is_nil r then
    Continue {| ls_msg := Message_zero;
                ls_started := ls_started st ++ [GoProcess b msg] |}
  else
    Continue {| ls_msg := msg; ls_started := ls_started st |}.

(** A run of the loop, cut after a number of iterations: the loop is still
    running, in the state it has reached, or it was left. *)
Inductive Run (S : Type) : Type :=
| Running (s : S)
| Exited (s : S).

(** The [for] loop of [Listen] from its [i]-th iteration on, for at most
    [fuel] iterations; [recv i] is the [i]-th receive on [b.Socket]. *)
Fixpoint Listen_from (b : Bot) (recv : nat -> Receive) (fuel i : nat)
    (st : ListenState) : Run ListenState :=
  match fuel with
  | O => Running st
  | S fuel' =>
    match Listen_body b (recv i) st with
    | Continue st' => Listen_from b recv fuel' (S i) st'
    | Break st' => Exited st'
    end
  end.

Definition Listen_start : ListenState :=
  {| ls_msg := Message_zero; ls_started := [] |}.

(** [Listen], watched for [fuel] iterations: it has returned when the loop
    was left. *)
Definition Listen (b : Bot) (recv : nat -> Receive) (fuel : nat)
    : Run ListenState :=
  Listen_from b recv fuel 0 Listen_start.

Definition Command (cmd : string) (h : Handler) (b : Bot) : Bot :=
  mkBot (Socket b) (Token b) (ID b)
        (Commands b ++ [NewCommand cmd "" h]) (Listeners b) (Prefix b).

Definition Hear (regex : string) (h : ListenerHandler) (b : Bot) : Bot :=
  mkBot (Socket b) (Token b) (ID b) (Commands b)
        (Listeners b ++ [Listener_interface (NewListener regex h)]) (Prefix b).

Definition RegisterCommand (cmd : CommandInterface) (b : Bot) : Bot :=
  mkBot (Socket b) (Token b) (ID b) (Commands b ++ [cmd]) (Listeners b) (Prefix b).

Definition RegisterListener (lst : ListenerInterface) (b : Bot) : Bot :=
  mkBot (Socket b) (Token b) (ID b) (Commands b) (Listeners b ++ [lst]) (Prefix b).

(** *** The passes, as the specification words them *)

(** The message after the three strips of [process]. *)
Definition stripped (b : Bot) (message : Message) : Message :=
  StripPrefix (Prefix b) (StripLinkMarkup (StripMention (ID b) message)).

(** The commands whose pattern matches the text, each with its own match,
    in registration order. *)
Fixpoint matching_commands (cmds : list CommandInterface) (text : string)
    : list (CommandInterface * MatchInterface) :=
  match cmds with
  | [] => []
  | cmd :: rest =>
    match cmd_Match cmd text with
    | Some match_ => (cmd, match_) :: matching_commands rest text
    | None => matching_commands rest text
    end
  end.

Definition is_match (text : string) (cmd : CommandInterface) : bool :=
  match cmd_Match cmd text with
  | Some _ => true
  | None => false
  end.

(** One handler invocation of the command pass. *)
Definition invoke (b : Bot) (msg : Message)
    (cm : CommandInterface * MatchInterface) : list Event :=
  cmd_Handle (fst cm) (NewConversation (snd cm) msg (Socket b)).

(** The listener's string compiles to a regular expression. *)
Definition compiles (lst : ListenerInterface) : Prop :=
  regexp_Compile (lst_Get lst) <> None.

(** The listener's regular expression has a match in the text. *)
Definition fires (text : string) (lst : ListenerInterface) : bool :=
  match regexp_Compile (lst_Get lst) with
  | Some r => MatchString r text
  | None => false
  end.

(** What the listener pass does for one listener that fires. *)
Definition listener_events (b : Bot) (msg : Message) (lst : ListenerInterface)
    : list Event :=
  LogPrintf (listener_log msg)
    :: lst_Handle lst (NewListenerConversation msg (Socket b)).

(** The listener pass on [msg] when the listeners that fire are those whose
    regular expression has a match in [text]. *)
Definition listener_pass (b : Bot) (text : string) (msg : Message) : list Event :=
  flat_map (fun lst => if fires text lst then listener_events b msg lst else [])
           (Listeners b).

(** One line of the help: the pattern as inline code, then the description
    when there is one. *)
Definition help_line (cmd : CommandInterface) : string :=
  ("`" ++ cmd_Text cmd ++ "`"
   ++ (if nonempty (Description cmd) then " *–* " ++ Description cmd else "")
   ++ nl)%string.

Fixpoint help_lines (cmds : list CommandInterface) : string :=
  match cmds with
  | [] => ""
  | cmd :: rest => (help_line cmd ++ help_lines rest)%string
  end.

(** The mention of the sender that opens a reply outside a direct channel. *)
Definition mention (msg : Message) : string :=
  if IsDirectMessage msg then "" else ("<@" ++ User msg ++ ">: ")%string.

Definition help_text (b : Bot) (msg : Message) : string :=
  (mention msg ++ help_intro ++ help_lines (Commands b))%string.

End Hanu.

Arguments GoHandler {MA NA Handler ListenerHandler MatchInterface} h conv.
Arguments GoListenerHandler {MA NA Handler ListenerHandler MatchInterface} h conv.
Arguments JSONSend {MA NA Handler ListenerHandler MatchInterface} socket msg.
Arguments LogPrintf {MA NA Handler ListenerHandler MatchInterface} line.
Arguments HTTPGet {MA NA Handler ListenerHandler MatchInterface} url.
Arguments WebsocketDial {MA NA Handler ListenerHandler MatchInterface} url protocol origin.
Arguments Listener_Handle {MA NA Handler ListenerHandler MatchInterface} c conv.
Arguments Listener_interface {MA NA Handler ListenerHandler MatchInterface} c.
Arguments NewCommand {MA NA Handler ListenerHandler MatchInterface} pattern_Match cmd description h.
Arguments New {MA NA} Handler ListenerHandler MatchInterface token.
Arguments help_line {MA NA Handler ListenerHandler MatchInterface} cmd.
Arguments Listen_start {MA NA Handler ListenerHandler MatchInterface}.
Arguments NewListenerConversation {MA NA MatchInterface} msg socket.
Arguments compiles {MA RA NA Handler ListenerHandler MatchInterface} lst.

(** The origin [Handshake] dials with. *)
Definition slack_origin : string := "https://api.slack.com/".

(** ** Calls of the registration API, and what the dispatcher reaches *)

Section Registrations.

Context {MA : MessageAPI} {RA : RegexpAPI} {NA : NetAPI}.
Variable Handler : Type.
Variable ListenerHandler : Type.
Variable MatchInterface : Type.
Variable pattern_Match : string -> string -> option MatchInterface.

(** One call of [Command], [Hear], [RegisterCommand], [RegisterListener] or
    [SetPrefix]. *)
Inductive Registration : Type :=
| CallCommand (cmd : string) (h : Handler)
| CallHear (regex : string) (h : ListenerHandler)
| CallRegisterCommand (cmd : CommandInterface Handler ListenerHandler MatchInterface)
| CallRegisterListener (lst : ListenerInterface Handler ListenerHandler MatchInterface)
| CallSetPrefix (prefix : string).

Definition call (r : Registration) (b : Bot Handler ListenerHandler MatchInterface)
    : Bot Handler ListenerHandler MatchInterface :=
  match r with
  | CallCommand cmd h => Command pattern_Match cmd h b
  | CallHear regex h => Hear regex h b
  | CallRegisterCommand cmd => RegisterCommand cmd b
  | CallRegisterListener lst => RegisterListener lst b
  | CallSetPrefix prefix => SetPrefix prefix b
  end.

(** The calls of [rs], made one after the other. *)
Definition calls (rs : list Registration) (b : Bot Handler ListenerHandler MatchInterface)
    : Bot Handler ListenerHandler MatchInterface :=
  fold_left (fun b r => call r b) rs b.

(** [process] gets as far as the listener pass: the message is not
    bot-addressed, or it is, asks for no help and matches no command. *)
Definition reaches_listeners (b : Bot Handler ListenerHandler MatchInterface)
    (m : Message) : bool :=
  if IsBotMessage (Prefix b) (ID b) m then
    negb (IsHelpRequest (stripped b m))
    && negb (existsb (is_match (Text (stripped b m))) (Commands b))
  else true.

(** A listener whose string does not compile. *)
Definition broken_listener
    (lst : ListenerInterface Handler ListenerHandler MatchInterface) : Prop :=
  regexp_Compile (lst_Get lst) = None.

(** The number of receives among the [n] from the [i]-th on that return a nil
    error. *)
Fixpoint delivered (recv : nat -> Receive) (n i : nat) : nat :=
  match n with
  | O => O
  | S n' => (if err_is_nil (recv i) then 1 else 0) + delivered recv n' (S i)
  end.

End Registrations.

Arguments CallCommand {MA NA Handler ListenerHandler MatchInterface} cmd h.
Arguments CallHear {MA NA Handler ListenerHandler MatchInterface} regex h.
Arguments CallRegisterCommand {MA NA Handler ListenerHandler MatchInterface} cmd.
Arguments CallRegisterListener {MA NA Handler ListenerHandler MatchInterface} lst.
Arguments CallSetPrefix {MA NA Handler ListenerHandler MatchInterface} prefix.
Arguments broken_listener {MA RA NA Handler ListenerHandler MatchInterface} lst.

(** ** A regular-expression engine for a fragment of the syntax

    Literal characters, [.], grouping, alternation and the postfix operators
    [*], [+] and [?], over ASCII text, matched with derivatives.  A string
    outside the fragment is treated like one that does not compile. *)
Module SampleRegexp.

Inductive re : Type :=
| Void
| Eps
| Chr (c : ascii)
| Any
| Cat (r1 r2 : re)
| Alt (r1 r2 : re)
| Star (r : re).

Fixpoint nullable (r : re) : bool :=
  match r with
  | Void => false
  | Eps => true
  | Chr _ => false
  | Any => false
  | Cat r1 r2 => nullable r1 && nullable r2
  | Alt r1 r2 => nullable r1 || nullable r2
  | Star _ => true
  end.

Fixpoint deriv (c : ascii) (r : re) : re :=
  match r with
  | Void => Void
  | Eps => Void
  | Chr d => if Ascii.eqb c d then Eps else Void
  | Any => if Ascii.eqb c "010" then Void else Eps
  | Cat r1 r2 =>
    if nullable r1
    then Alt (Cat (deriv c r1) r2) (deriv c r2)
    else Cat (deriv c r1) r2
  | Alt r1 r2 => Alt (deriv c r1) (deriv c r2)
  | Star r1 => Cat (deriv c r1) (Star r1)
  end.

(** The whole of [s] is a match of [r]. *)
Fixpoint full (r : re) (s : string) : bool :=
  match s with
  | EmptyString => nullable r
  | String c s' => full (deriv c r) s'
  end.

(** Some prefix of [s] is a match of [r]. *)
Fixpoint at_start (r : re) (s : string) : bool :=
  nullable r ||
  match s with
  | EmptyString => false
  | String c s' => at_start (deriv c r) s'
  end.

(** [s] contains a match of [r]. *)
Fixpoint search (r : re) (s : string) : bool :=
  at_start r s ||
  match s with
  | EmptyString => false
  | String _ s' => search r s'
  end.

Definition is_meta (c : ascii) : bool :=
  existsb (Ascii.eqb c)
          (list_ascii_of_string "\.+*?()|[]{}^$").

(** At most one postfix operator after an atom. *)
Definition postfix (r : re) (s : list ascii) : option (re * list ascii) :=
  let repeated (c : ascii) := existsb (Ascii.eqb c) (list_ascii_of_string "*+?") in
  let checked (r' : re) (rest : list ascii) :=
    match rest with
    | c :: _ => if repeated c then None else Some (r', rest)
    | [] => Some (r', rest)
    end in
  match s with
  | "*"%char :: rest => checked (Star r) rest
  | "+"%char :: rest => checked (Cat r (Star r)) rest
  | "?"%char :: rest => checked (Alt r Eps) rest
  | _ => Some (r, s)
  end.

(** Recursive descent; [fuel] bounds the nesting and the length. *)
Fixpoint parse_alt (fuel : nat) (s : list ascii) : option (re * list ascii) :=
  match fuel with
  | O => None
  | S fuel' =>
    let parse_atom (s : list ascii) : option (re * list ascii) :=
      match s with
      | "("%char :: rest =>
        match parse_alt fuel' rest with
        | Some (r, ")"%char :: rest') => Some (r, rest')
        | _ => None
        end
      | "\"%char :: c :: rest => if is_meta c then Some (Chr c, rest) else None
      | "."%char :: rest => Some (Any, rest)
      | c :: rest => if is_meta c then None else Some (Chr c, rest)
      | [] => None
      end in
    let fix parse_cat (n : nat) (s : list ascii) : option (re * list ascii) :=
      match n with
      | O => None
      | S n' =>
        match s with
        | [] => Some (Eps, s)
        | "|"%char :: _ => Some (Eps, s)
        | ")"%char :: _ => Some (Eps, s)
        | _ =>
          match parse_atom s with
          | Some (r, rest) =>
            match postfix r rest with
            | Some (r', rest') =>
              match parse_cat n' rest' with
              | Some (Eps, rest'') => Some (r', rest'')
              | Some (r'', rest'') => Some (Cat r' r'', rest'')
              | None => None
              end
            | None => None
            end
          | None => None
          end
        end
      end in
    match parse_cat fuel s with
    | Some (r, "|"%char :: rest) =>
      match parse_alt fuel' rest with
      | Some (r', rest') => Some (Alt r r', rest')
      | None => None
      end
    | other => other
    end
  end.

Definition Compile (expr : string) : option re :=
  let s := list_ascii_of_string expr in
  match parse_alt (S (List.length s)) s with
  | Some (r, []) => Some r
  | _ => None
  end.

End SampleRegexp.

(** ** The message type of the specification *)
Module SpecMessage.

(** Modelled from the spec: the [Message] struct is declared in a file that
    is not among the available sources.  A message has the raw text as
    received (the field [Message]), the derived text that classification
    strips in place, the sender, the channel and the channel-type flag. *)
Record t : Type := mk {
  raw : string;
  derived : string;
  sender : string;
  channel : string;
  direct : bool
}.

Definition zero : t := mk "" "" "" "" false.

(** A frame as decoded from the wire: the derived text starts as the raw
    text. *)
Definition inbound (text sender channel : string) (direct : bool) : t :=
  mk text text sender channel direct.

Definition set_derived (text : string) (m : t) : t :=
  mk (raw m) text (sender m) (channel m) (direct m).

Definition mention_token (botID : string) : string := "<@" ++ botID ++ ">".

Definition drop (n : nat) (s : string) : string :=
  substring n (String.length s - n) s.

(** [before] and [after] the first occurrence of [c]. *)
Fixpoint split_on (c : ascii) (s : string) : option (string * string) :=
  match s with
  | EmptyString => None
  | String d s' =>
    if Ascii.eqb c d then Some (EmptyString, s')
    else match split_on c s' with
         | Some (before, after) => Some (String d before, after)
         | None => None
         end
  end.

Fixpoint strip_links (fuel : nat) (s : string) : string :=
  match fuel with
  | O => s
  | S fuel' =>
    match s with
    | EmptyString => EmptyString
    | String c s' =>
      if Ascii.eqb c "<" then
        match split_on ">" s' with
        | Some (inner, after) =>
          (match split_on "|" inner with
           | Some (_, label) => label
           | None => inner
           end ++ strip_links fuel' after)%string
        | None => s
        end
      else String c (strip_links fuel' s')
    end
  end.

(** Modelled from the spec: true if the derived text starts with the prefix,
    or contains a mention token referencing the bot, or the channel is a
    direct one. *)
Definition IsBotMessage (prefix botID : string) (m : t) : bool :=
  String.prefix prefix (derived m)
  || match String.index 0 (mention_token botID) (derived m) with
     | Some _ => true
     | None => false
     end
  || direct m.

(** Modelled from the spec: removes the first mention token referencing the
    bot from the derived text. *)
Definition StripMention (botID : string) (m : t) : t :=
  let token := mention_token botID in
  match String.index 0 token (derived m) with
  | Some i =>
    set_derived (substring 0 i (derived m)
                 ++ drop (i + String.length token) (derived m))%string m
  | None => m
  end.

(** Modelled from the spec: [<url|label>] becomes [label] and [<url>]
    becomes [url], in the derived text. *)
Definition StripLinkMarkup (m : t) : t :=
  set_derived (strip_links (String.length (derived m)) (derived m)) m.

(** Modelled from the spec: removes a single leading occurrence of the prefix
    from the derived text. *)
Definition StripPrefix (prefix : string) (m : t) : t :=
  if String.prefix prefix (derived m)
  then set_derived (drop (String.length prefix) (derived m)) m
  else m.

(** Modelled from the spec: the fully-stripped derived text equals the
    reserved help keyword. *)
Definition IsHelpRequest (m : t) : bool := String.eqb (derived m) "help".

End SpecMessage.

(** The message type of the specification, as the interface [main.go]
    uses. *)
#[export] Instance spec_MessageAPI : MessageAPI := {|
  Message := SpecMessage.t;
  Message_field := SpecMessage.raw;
  Message_zero := SpecMessage.zero;
  Text := SpecMessage.derived;
  SetText := SpecMessage.set_derived;
  User := SpecMessage.sender;
  IsDirectMessage := SpecMessage.direct;
  IsBotMessage := SpecMessage.IsBotMessage;
  StripMention := SpecMessage.StripMention;
  StripLinkMarkup := SpecMessage.StripLinkMarkup;
  StripPrefix := SpecMessage.StripPrefix;
  IsHelpRequest := SpecMessage.IsHelpRequest
|}.

(** ** A message type with one text field *)
Module OneFieldMessage.

(** The other way to implement the calls of [main.go]: the text of a message
    is the field [Message] and nothing else.  [Text] returns that field and
    [SetText] writes it, so that the reply [sendHelp] sends carries the help
    where the inbound text was; the strips rewrite it in place, with the
    rules of the classifier above. *)
Record t : Type := mk {
  text : string;
  sender : string;
  channel : string;
  direct : bool
}.

Definition zero : t := mk "" "" "" false.

Definition set_text (s : string) (m : t) : t :=
  mk s (sender m) (channel m) (direct m).

Definition IsBotMessage (prefix botID : string) (m : t) : bool :=
  String.prefix prefix (text m)
  || match String.index 0 (SpecMessage.mention_token botID) (text m) with
     | Some _ => true
     | None => false
     end
  || direct m.

Definition StripMention (botID : string) (m : t) : t :=
  let token := SpecMessage.mention_token botID in
  match String.index 0 token (text m) with
  | Some i =>
    set_text (substring 0 i (text m)
              ++ SpecMessage.drop (i + String.length token) (text m))%string m
  | None => m
  end.

Definition StripLinkMarkup (m : t) : t :=
  set_text (SpecMessage.strip_links (String.length (text m)) (text m)) m.

Definition StripPrefix (prefix : string) (m : t) : t :=
  if String.prefix prefix (text m)
  then set_text (SpecMessage.drop (String.length prefix) (text m)) m
  else m.

Definition IsHelpRequest (m : t) : bool := String.eqb (text m) "help".

End OneFieldMessage.



(** ** A service that refuses the token *)
Module RefusingService.

Definition quoted (s : string) : string :=
  String "034" s ++ String "034" EmptyString.

Definition body : string :=
  "{" ++ quoted "ok" ++ ":false," ++ quoted "error" ++ ":"
      ++ quoted "invalid_auth" ++ "}".

Definition refusal : handshakeResponse :=
  {| Ok := false; Error := "invalid_auth"; URL := ""; Self := {| Self_ID := "" |} |}.

Definition http_Get (url : string) : option Response :=
  Some {| StatusCode := 200; Body := Some body |}.

Definition json_Unmarshal (data : string) : option handshakeResponse :=
  if String.eqb data body then Some refusal else None.

Definition websocket_Dial (url protocol origin : string) : option unit :=
  Some tt.

End RefusingService.

#[export] Instance refusing_NetAPI : NetAPI := {|
  Conn := unit;
  http_Get := RefusingService.http_Get;
  json_Unmarshal := RefusingService.json_Unmarshal;
  websocket_Dial := RefusingService.websocket_Dial
|}.

(** A pattern library for patterns without placeholders: the text has to be
    the pattern, and the match carries no parameter. *)
Definition literal_Match (pattern text : string) : option (list (string * string)) :=
  if String.eqb pattern text then Some [] else None.

(** The engine, as the interface [main.go] uses. *)
#[export] Instance sample_RegexpAPI : RegexpAPI := {|
  Regexp := SampleRegexp.re;
  regexp_Compile := SampleRegexp.Compile;
  matches := fun r m => SampleRegexp.full r m = true;
  MatchString := SampleRegexp.search
|}.

(** ** A bot *)
Module Demo.

(** Handlers are named; a match is the list of its parameters. *)
Definition handler : Type := string.
Definition params : Type := list (string * string).

Definition bot : Type := Bot handler handler params.

(** The bot after a handshake that gave it the identity [U1]. *)
Definition connected : bot := mkBot (Some tt) "xoxb" "U1" [] [] "!".

(** Two commands for one pattern, a third command, and a listener. *)
Definition registered : bot :=
  Hear "foo" "on_foo"
    (RegisterCommand (NewCommand literal_Match "status" "the state of the bot" "on_status")
       (Command literal_Match "hello" "again"
          (Command literal_Match "hello" "greet" connected))).

(** A command and a listener for the same word. *)
Definition both : bot :=
  Hear "foo" "on_foo" (Command literal_Match "foo" "cmd_foo" connected).

(** A bot with a listener whose string is not a regular expression. *)
Definition broken : bot := Hear "foo" "on_foo" (Hear "(" "on_paren" connected).

Definition in_channel (text : string) : Message :=
  SpecMessage.inbound text "U9" "C1" false.

Definition in_direct (text : string) : Message :=
  SpecMessage.inbound text "U9" "D1" true.

(** Every receive fails: the connection has terminated. *)
Definition terminated (i : nat) : Receive :=
  {| received := fun msg => msg; err_is_nil := false |}.

(** The first frame does not decode; the frames after it carry [hi]. *)
Definition glitch (i : nat) : Receive :=
  match i with
  | O => {| received := fun msg => msg; err_is_nil := false |}
  | S _ => {| received := fun _ => in_channel "hi"; err_is_nil := true |}
  end.

(** The third command of [registered]. *)
Definition status : CommandInterface handler handler params :=
  NewCommand literal_Match "status" "the state of the bot" "on_status".

(** Every frame decodes and carries [hi]. *)
Definition steady (i : nat) : Receive :=
  {| received := fun _ => in_channel "hi"; err_is_nil := true |}.

(** The first receive fails after it has stored the sender [U7]; the frames
    after it carry a text and a channel, and no sender. *)
Definition torn (i : nat) : Receive :=
  match i with
  | O => {| received := fun msg =>
                          SpecMessage.mk (SpecMessage.raw msg) (SpecMessage.derived msg)
                                         "U7" (SpecMessage.channel msg)
                                         (SpecMessage.direct msg);
            err_is_nil := false |}
  | S _ => {| received := fun msg =>
                            SpecMessage.mk "hi" "hi" (SpecMessage.sender msg) "C1" false;
              err_is_nil := true |}
  end.

End Demo.

(** ** A bot on the one-field message *)
Module OneField.



End OneField.

(** ** Services that answer as told *)
Module Scripted.

(** A service given by what its three calls answer; connections are
    numbered. *)
Definition service (get : string -> option Response)
    (decode : string -> option handshakeResponse)
    (dial : string -> string -> string -> option nat) : NetAPI :=
  {| Conn := nat; http_Get := get; json_Unmarshal := decode; websocket_Dial := dial |}.

Definition welcome : handshakeResponse :=
  {| Ok := true; Error := ""; URL := "wss://example/1";
     Self := {| Self_ID := "U1" |} |}.

Definition answer (code : Z) (url : string) : option Response :=
  Some {| StatusCode := code; Body := Some "welcome" |}.

(** The service accepts the token and the connection. *)
Definition accepting : NetAPI :=
  service (answer 200) (fun _ => Some welcome) (fun _ _ _ => Some 7).

(** The service accepts the token; the connection cannot be opened. *)
Definition unreachable : NetAPI :=
  service (answer 200) (fun _ => Some welcome) (fun _ _ _ => None).

(** The service answers with status 404. *)
Definition missing : NetAPI :=
  service (answer 404) (fun _ => Some welcome) (fun _ _ _ => Some 7).

End Scripted.

(** * Properties *)

(** ** Strings and outcomes *)

Lemma append_nil_r (s : string) : (s ++ "")%string = s.
Proof.
  induction s as [|c s IH]; simpl; [reflexivity|].
  now rewrite IH.
Qed.

Lemma append_assoc (s1 s2 s3 : string) :
  ((s1 ++ s2) ++ s3)%string = (s1 ++ (s2 ++ s3))%string.
Proof.
  induction s1 as [|c s1 IH]; simpl; [reflexivity|].
  now rewrite IH.
Qed.

Lemma append_eq_nil (s1 s2 : string) :
  (s1 ++ s2)%string = EmptyString -> s1 = EmptyString /\ s2 = EmptyString.
Proof.
  destruct s1; simpl; [auto | discriminate].
Qed.

Lemma bind_ret_tt {E A} (m : Outcome E A) (tr : list E) (a : A) :
  m = Returned tr a -> bind m (fun _ => ret tt) = Returned tr tt.
Proof.
  intros ->. simpl. now rewrite app_nil_r.
Qed.

Lemma and_true_iff (P : Prop) : P <-> true = true /\ P.
Proof.
  split; [intros H; split; [reflexivity | exact H] | intros [_ H]; exact H].
Qed.

Section HanuTheory.

Context {MA : MessageAPI} {RA : RegexpAPI} {NA : NetAPI}.
Variable Handler : Type.
Variable ListenerHandler : Type.
Variable MatchInterface : Type.
Variable pattern_Match : string -> string -> option MatchInterface.

Local Abbreviation bot := (Bot Handler ListenerHandler MatchInterface).
Local Abbreviation command := (CommandInterface Handler ListenerHandler MatchInterface).
Local Abbreviation listener := (ListenerInterface Handler ListenerHandler MatchInterface).
Local Abbreviation conversation := (ConversationInterface MatchInterface).
Local Abbreviation event := (Event Handler ListenerHandler MatchInterface).
Local Abbreviation state := (ListenState Handler ListenerHandler MatchInterface).

Local Open Scope outcome_scope.

(** ** Listener registration *)

(** C10.  A listener built by [NewListener] from a regex string [r] and a
    handler [h] returns exactly [r] from [Get], and its [Handle] starts
    exactly the handler [h], on the conversation it is given; the same holds
    through the [ListenerInterface] that [Hear] stores. *)
Theorem NewListener_roundtrip (r : string) (h : ListenerHandler) :
  Listener_Get (NewListener r h) = r
  /\ (forall conv : conversation,
        Listener_Handle (NewListener r h) conv
        = [GoListenerHandler (Some h) conv] :> list event)
  /\ lst_Get (Listener_interface (NewListener r h) : listener) = r
  /\ (forall conv : conversation,
        lst_Handle (Listener_interface (NewListener r h) : listener) conv
        = [GoListenerHandler (Some h) conv]).
Proof.
  repeat split.
Qed.

(** ** The command pass *)

Lemma searchCommand_from_spec (b : bot) (msg : Message)
    (cmds : list command) (c : bool) :
  searchCommand_from b msg cmds c =
  Returned (flat_map (invoke b msg) (matching_commands cmds (Text msg)))
           (c || (0 <? List.length (matching_commands cmds (Text msg)))%nat).
Proof.
  revert c. induction cmds as [|cmd rest IH]; intros c; simpl.
  - unfold ret. now rewrite orb_false_r.
  - destruct (cmd_Match cmd (Text msg)) as [match_|] eqn:Hm.
    + rewrite IH. simpl. now rewrite orb_true_r.
    + apply IH.
Qed.

Lemma matching_commands_fst (cmds : list command) (text : string) :
  map fst (matching_commands cmds text) = filter (is_match text) cmds.
Proof.
  induction cmds as [|cmd rest IH]; simpl; [reflexivity|].
  unfold is_match at 1.
  destruct (cmd_Match cmd text); simpl; now rewrite IH.
Qed.

Lemma matching_commands_own (cmds : list command) (text : string) :
  Forall (fun cm => cmd_Match (fst cm) text = Some (snd cm))
         (matching_commands cmds text).
Proof.
  induction cmds as [|cmd rest IH]; simpl; [constructor|].
  destruct (cmd_Match cmd text) eqn:Hm; [constructor|]; assumption.
Qed.

Lemma invoke_NewCommand_length (b : bot) (msg : Message)
    (ms : list (command * MatchInterface)) :
  (forall cm, In cm ms -> exists p d h, fst cm = NewCommand pattern_Match p d h) ->
  List.length (flat_map (invoke b msg) ms) = List.length ms.
Proof.
  induction ms as [|cm rest IH]; intros Hnew; simpl; [reflexivity|].
  rewrite length_app, IH by (intros; apply Hnew; now right).
  destruct (Hnew cm) as (p & d & h & Hcmd); [now left|].
  unfold invoke. now rewrite Hcmd.
Qed.

(** C2.  Let [ms] be the registered commands whose pattern matches the text
    of the message, in registration order, each paired with the match its own
    pattern returned, and let k be the length of [ms] (the number of matching
    commands).  The command pass calls [Handle] once for each element of
    [ms], in that order, with a conversation made of that command's match,
    and nothing else; it returns true exactly when k > 0.  When the commands
    are those built by [NewCommand], exactly k handlers are started. *)
Theorem searchCommand_all_matches (b : bot) (msg : Message) :
  let ms := matching_commands (Commands b) (Text msg) in
  searchCommand b msg = Returned (flat_map (invoke b msg) ms) (0 <? List.length ms)%nat
  /\ map fst ms = filter (is_match (Text msg)) (Commands b)
  /\ List.length ms = List.length (filter (is_match (Text msg)) (Commands b))
  /\ Forall (fun cm => cmd_Match (fst cm) (Text msg) = Some (snd cm)) ms
  /\ ((forall cmd, In cmd (Commands b) ->
         exists p d h, cmd = NewCommand pattern_Match p d h) ->
      List.length (trace_of (searchCommand b msg)) = List.length ms).
Proof.
  intros ms. subst ms.
  assert (Hrun := searchCommand_from_spec b msg (Commands b) false).
  assert (Hfst := matching_commands_fst (Commands b) (Text msg)).
  split; [exact Hrun|]. split; [exact Hfst|].
  split; [rewrite <- Hfst; now rewrite length_map|].
  split; [apply matching_commands_own|].
  intros Hnew. unfold searchCommand. rewrite Hrun. simpl.
  apply invoke_NewCommand_length. intros cm Hcm. apply Hnew.
  apply (in_map fst) in Hcm. rewrite Hfst in Hcm.
  now apply filter_In in Hcm.
Qed.

(** ** The help reply *)

Ltac normalize_append :=
  repeat first [rewrite append_assoc | rewrite append_nil_r | progress simpl].

Lemma help_lines_app (cmds1 cmds2 : list command) :
  help_lines (cmds1 ++ cmds2) = (help_lines cmds1 ++ help_lines cmds2)%string.
Proof.
  induction cmds1 as [|cmd rest IH]; cbn [help_lines app]; [reflexivity|].
  now rewrite IH, append_assoc.
Qed.

Lemma help_fold (cmds : list command) (help : string) :
  fold_left
    (fun (help : string) (cmd : command) =>
       let help := (help ++ "`" ++ cmd_Text cmd ++ "`")%string in
       let help :=
         if nonempty (Description cmd)
         then (help ++ " *–* " ++ Description cmd)%string
         else help in
       (help ++ nl)%string)
    cmds help
  = (help ++ help_lines cmds)%string.
Proof.
  revert help. induction cmds as [|cmd rest IH]; intros help.
  - simpl. now rewrite append_nil_r.
  - cbn [fold_left help_lines]. rewrite IH. unfold help_line.
    destruct (nonempty (Description cmd)); normalize_append; reflexivity.
Qed.

Lemma sendHelp_eq (b : bot) (msg : Message) :
  sendHelp b msg
  = Returned [JSONSend (Socket b) (SetText (help_text b msg) msg)] tt.
Proof.
  unfold sendHelp, emit, help_text, mention. rewrite help_fold.
  destruct (IsDirectMessage msg); simpl; [reflexivity|].
  now rewrite append_assoc.
Qed.

(** C7.  For every registry of commands and every message, [sendHelp] sends
    one reply, the message with its text replaced.  The text lists the
    commands in registration order, one entry per command, each ending its
    line: the raw pattern between backquotes, followed by the description
    exactly when the description is not empty.  The text opens with a mention
    of the sender exactly when the message is not a direct message. *)
Theorem sendHelp_reply (b : bot) (msg : Message) :
  sendHelp b msg
  = Returned [JSONSend (Socket b) (SetText (help_text b msg) msg)] tt
  /\ help_text b msg
     = ((if IsDirectMessage msg then "" else "<@" ++ User msg ++ ">: ")
        ++ help_intro
        ++ String.concat "" (map help_line (Commands b)))%string
  /\ (forall cmd : command,
        help_line cmd
        = if nonempty (Description cmd)
          then ("`" ++ cmd_Text cmd ++ "`" ++ " *–* " ++ Description cmd ++ nl)%string
          else ("`" ++ cmd_Text cmd ++ "`" ++ nl)%string).
Proof.
  split; [apply sendHelp_eq|]. split.
  - unfold help_text, mention. do 2 f_equal.
    induction (Commands b) as [|cmd rest IH]; [reflexivity|].
    cbn [help_lines map]. rewrite IH.
    destruct (map help_line rest); simpl; [now rewrite append_nil_r | reflexivity].
  - intros cmd. unfold help_line.
    destruct (nonempty (Description cmd)); normalize_append; reflexivity.
Qed.

(** C9.  A command registered by [Command] is appended to the registry as
    [NewCommand cmd "" handler]: its description is empty, its help line is
    the pattern between backquotes and nothing more, and the help of the bot
    ends with that line. *)
Theorem Command_empty_description (cmd : string) (h : Handler) (b : bot) :
  let b' := Command pattern_Match cmd h b in
  Commands b' = Commands b ++ [NewCommand pattern_Match cmd "" h]
  /\ Description (NewCommand (ListenerHandler := ListenerHandler)
                             pattern_Match cmd "" h) = ""
  /\ help_line (NewCommand (ListenerHandler := ListenerHandler)
                           pattern_Match cmd "" h)
     = ("`" ++ cmd ++ "`" ++ nl)%string
  /\ (forall msg,
        sendHelp b' msg
        = Returned [JSONSend (Socket b')
                      (SetText (help_text b msg ++ "`" ++ cmd ++ "`" ++ nl) msg)] tt).
Proof.
  intros b'. subst b'. repeat split.
  intros msg. rewrite sendHelp_eq. unfold help_text. simpl.
  rewrite help_lines_app. cbn [help_lines]. unfold help_line at 1.
  cbn [Description NewCommand nonempty cmd_Text].
  normalize_append. reflexivity.
Qed.

(** ** The listener pass *)

Lemma searchListener_from_spec (b : bot) (msg : Message)
    (lsts : list listener) (l : bool) :
  Forall compiles lsts ->
  searchListener_from b msg lsts l =
  Returned
    (flat_map (fun lst => if fires (Message_field msg) lst
                          then listener_events b msg lst else [])
              lsts)
    (l || existsb (fires (Message_field msg)) lsts).
Proof.
  intros Hall. revert l.
  induction Hall as [|lst rest Hlst Hrest IH]; intros l; simpl.
  - unfold ret. now rewrite orb_false_r.
  - unfold compiles in Hlst. unfold fires at 1 3.
    destruct (regexp_Compile (lst_Get lst)) as [r|]; [|congruence].
    destruct (MatchString r (Message_field msg)).
    + rewrite IH. simpl. now rewrite orb_true_r.
    + apply IH.
Qed.

Lemma searchListener_spec (b : bot) (msg : Message) :
  Forall compiles (Listeners b) ->
  searchListener b msg =
  Returned (listener_pass b (Message_field msg) msg)
           (existsb (fires (Message_field msg)) (Listeners b)).
Proof.
  intros Hall. unfold searchListener.
  now rewrite searchListener_from_spec.
Qed.

(** The pass panics at the first listener whose string does not compile:
    the nil [*Regexp] is dereferenced by [MatchString]. *)
Lemma searchListener_from_panics (b : bot) (msg : Message)
    (lsts : list listener) (l : bool) :
  Exists (fun lst => regexp_Compile (lst_Get lst) = None) lsts ->
  value_of (searchListener_from b msg lsts l) = None.
Proof.
  intros Hex. revert l.
  induction Hex as [lst rest Hlst | lst rest Hrest IH]; intros l; simpl.
  - now rewrite Hlst.
  - destruct (regexp_Compile (lst_Get lst)) as [r|]; [|reflexivity].
    destruct (MatchString r (Message_field msg)).
    + specialize (IH true).
      destruct (searchListener_from b msg rest true); [discriminate|reflexivity].
    + apply IH.
Qed.

(** ** The dispatcher *)

Lemma process_unfold (b : bot) (m : Message) :
  process b m =
  if IsBotMessage (Prefix b) (ID b) m then
    if IsHelpRequest (stripped b m) then sendHelp b (stripped b m)
    else
      c <- searchCommand b (stripped b m) ;;
      if c then ret tt
      else (_ <- searchListener b (stripped b m) ;; ret tt)
  else (_ <- searchListener b m ;; ret tt).
Proof. reflexivity. Qed.

Lemma bind_nil_false {E B} (k : bool -> Outcome E B) :
  bind (Returned [] false) k = k false.
Proof.
  simpl. now destruct (k false).
Qed.

(** C1.  For a bot-addressed message, let [m'] be the message after the three
    strips.  If [m'] is a help request, [process] sends the help and does
    nothing else: no command handler and no listener is reached.  Otherwise
    the command pass runs on [m']; if it matched a command, [process] does
    what the command pass did and nothing else; if it matched none,
    [process] goes on with the listener pass, which is given the stripped
    message [m']. *)
Theorem process_bot_message (b : bot) (m : Message) :
  IsBotMessage (Prefix b) (ID b) m = true ->
  let m' := stripped b m in
  let ms := matching_commands (Commands b) (Text m') in
  (IsHelpRequest m' = true ->
     process b m = sendHelp b m'
     /\ process b m
        = Returned [JSONSend (Socket b) (SetText (help_text b m') m')] tt)
  /\ (IsHelpRequest m' = false ->
      (ms <> [] ->
         value_of (searchCommand b m') = Some true
         /\ process b m = Returned (trace_of (searchCommand b m')) tt
         /\ process b m = Returned (flat_map (invoke b m') ms) tt)
      /\ (ms = [] ->
         searchCommand b m' = Returned [] false
         /\ process b m = (searchListener b m' ;;; ret tt))).
Proof.
  intros Hbot m' ms. rewrite process_unfold, Hbot. fold m'.
  assert (Hcmd := searchCommand_from_spec b m' (Commands b) false).
  fold (searchCommand b m') in Hcmd. fold ms in Hcmd. simpl in Hcmd.
  split.
  - intros ->. split; [reflexivity | apply sendHelp_eq].
  - intros ->. split.
    + intros Hne. rewrite Hcmd.
      destruct ms as [|cm rest]; [congruence|].
      cbn [List.length Nat.ltb Nat.leb value_of trace_of bind ret].
      now rewrite app_nil_r.
    + intros Hnil. rewrite Hcmd, Hnil. cbn [List.length flat_map Nat.ltb Nat.leb].
      split; [reflexivity | apply bind_nil_false].
Qed.

(** ** The handshake *)

(** C3.  When the negotiation request is answered (status 200, a body that
    is read and parsed) with a response whose [ok] is false, [Handshake] and
    [New] fail with an error whose message is exactly the error string of the
    response, and the only thing they did is the HTTP request: no websocket
    connection is dialled, and the receiver is left as it was. *)
Theorem Handshake_refused (token : string) (res : Response) (body : string)
    (response : handshakeResponse) :
  http_Get (rtm_start token) = Some res ->
  StatusCode res = 200%Z ->
  Body res = Some body ->
  json_Unmarshal body = Some response ->
  Ok response = false ->
  New Handler ListenerHandler MatchInterface token
  = ([HTTPGet (rtm_start token)], (None, Some (Error response)))
  /\ (forall b : bot,
        Token b = token ->
        Handshake b = ([HTTPGet (rtm_start token)], b, Some (Error response)))
  /\ (forall url protocol origin,
        ~ In (WebsocketDial url protocol origin)
             (fst (New Handler ListenerHandler MatchInterface token))).
Proof.
  intros Hget Hcode Hbody Hjson Hok.
  assert (Hhs : forall b : bot, Token b = token ->
            Handshake b = ([HTTPGet (rtm_start token)], b, Some (Error response))).
  { intros b Htoken. unfold Handshake.
    rewrite Htoken, Hget, Hcode, Hbody, Hjson, Hok. reflexivity. }
  assert (Hnew : New Handler ListenerHandler MatchInterface token
                 = ([HTTPGet (rtm_start token)], (None, Some (Error response)))).
  { unfold New. now rewrite Hhs. }
  split; [exact Hnew|]. split; [exact Hhs|].
  intros url protocol origin. rewrite Hnew. simpl.
  intros [Heq|[]]. discriminate.
Qed.

(** ** The receive loop *)

Lemma Listen_body_continues (b : bot) (r : Receive) (st : state) :
  exists st', Listen_body b r st = Continue st'.
Proof.
  unfold Listen_body. destruct (err_is_nil r); eauto.
Qed.

Lemma Listen_from_running (b : bot) (recv : nat -> Receive) (fuel i : nat)
    (st : state) :
  exists st', Listen_from b recv fuel i st = Running st'.
Proof.
  revert i st. induction fuel as [|fuel IH]; intros i st; simpl; [eauto|].
  destruct (Listen_body_continues b (recv i) st) as [st' ->].
  apply IH.
Qed.

Lemma Listen_from_not_exited (b : bot) (recv : nat -> Receive) (fuel i : nat)
    (st st' : state) :
  Listen_from b recv fuel i st <> Exited st'.
Proof.
  destruct (Listen_from_running b recv fuel i st) as [st'' ->]. discriminate.
Qed.

(** C5, as the code has it.  [Listen] never returns: whatever the receives
    deliver, among them reads that report the termination of the connection,
    the loop is still running after any number of iterations. *)
Theorem Listen_never_returns (b : bot) (recv : nat -> Receive) (fuel : nat) :
  (exists st, Listen b recv fuel = Running st)
  /\ (forall st, Listen b recv fuel <> Exited st).
Proof.
  split; [apply Listen_from_running|].
  intros st. apply Listen_from_not_exited.
Qed.

(** C6.  When the receive of an iteration returns an error, the iteration
    starts no goroutine and reports nothing: the goroutines started so far are
    unchanged, the loop is not left, and it goes on with the next receive. *)
Theorem Listen_skips_failed_receive (b : bot) (recv : nat -> Receive)
    (fuel i : nat) (st : state) :
  err_is_nil (recv i) = false ->
  exists st',
    Listen_body b (recv i) st = Continue st'
    /\ ls_started st' = ls_started st
    /\ Listen_from b recv (S fuel) i st = Listen_from b recv fuel (S i) st'
    /\ (forall st'', Listen_from b recv (S fuel) i st <> Exited st'').
Proof.
  intros Herr.
  exists {| ls_msg := received (recv i) (ls_msg st); ls_started := ls_started st |}.
  simpl. unfold Listen_body. rewrite Herr. repeat split.
  intros st''. apply Listen_from_not_exited.
Qed.

(** ** More on the handshake *)

(** X1.  When the negotiation succeeds (status 200, a body that is read and
    parsed, [ok] true) and the websocket opens, [Handshake] returns a nil
    error and the receiver with the identity of the response and the open
    socket, its token, registries and prefix untouched; it made one HTTP
    request and one dial, to the URL of the response with an empty protocol.
    [New] returns such a bot with the prefix [!] and empty registries. *)
Theorem Handshake_connects (token : string) (res : Response) (body : string)
    (response : handshakeResponse) (socket : Conn) :
  http_Get (rtm_start token) = Some res ->
  StatusCode res = 200%Z ->
  Body res = Some body ->
  json_Unmarshal body = Some response ->
  Ok response = true ->
  websocket_Dial (URL response) "" slack_origin = Some socket ->
  let tr : list event :=
    [HTTPGet (rtm_start token); WebsocketDial (URL response) "" slack_origin] in
  (forall b : bot,
     Token b = token ->
     Handshake b
     = (tr,
        mkBot (Some socket) token (Self_ID (Self response))
              (Commands b) (Listeners b) (Prefix b),
        None))
  /\ New Handler ListenerHandler MatchInterface token
     = (tr, (Some (mkBot (Some socket) token (Self_ID (Self response)) [] [] "!"),
             None)).
Proof.
  intros Hget Hcode Hbody Hjson Hok Hdial tr.
  assert (Hhs : forall b : bot, Token b = token ->
            Handshake b
            = (tr, mkBot (Some socket) token (Self_ID (Self response))
                         (Commands b) (Listeners b) (Prefix b), None)).
  { intros b Htoken. unfold Handshake. unfold slack_origin in Hdial.
    rewrite Htoken, Hget, Hcode, Hbody, Hjson, Hok. cbn [negb Z.eqb Pos.eqb].
    rewrite Hdial. unfold set_Socket, set_ID. cbn. now rewrite Htoken. }
  split; [exact Hhs|].
  unfold New. now rewrite Hhs.
Qed.

(** X2.  When the negotiation succeeds and the websocket does not open,
    [Handshake] fails with [Failed to connect to Websocket], and the receiver
    is not left as it was: its identity is already that of the response and
    its socket is nil, whatever it was before.  [New] returns no bot. *)
Theorem Handshake_dial_fails (token : string) (res : Response) (body : string)
    (response : handshakeResponse) :
  http_Get (rtm_start token) = Some res ->
  StatusCode res = 200%Z ->
  Body res = Some body ->
  json_Unmarshal body = Some response ->
  Ok response = true ->
  websocket_Dial (URL response) "" slack_origin = None ->
  let tr : list event :=
    [HTTPGet (rtm_start token); WebsocketDial (URL response) "" slack_origin] in
  (forall b : bot,
     Token b = token ->
     Handshake b
     = (tr,
        mkBot None token (Self_ID (Self response))
              (Commands b) (Listeners b) (Prefix b),
        Some "Failed to connect to Websocket"))
  /\ New Handler ListenerHandler MatchInterface token
     = (tr, (None, Some "Failed to connect to Websocket")).
Proof.
  intros Hget Hcode Hbody Hjson Hok Hdial tr.
  assert (Hhs : forall b : bot, Token b = token ->
            Handshake b
            = (tr, mkBot None token (Self_ID (Self response))
                         (Commands b) (Listeners b) (Prefix b),
               Some "Failed to connect to Websocket")).
  { intros b Htoken. unfold Handshake. unfold slack_origin in Hdial.
    rewrite Htoken, Hget, Hcode, Hbody, Hjson, Hok. cbn [negb Z.eqb Pos.eqb].
    rewrite Hdial. unfold set_Socket, set_ID, errors_New. cbn. now rewrite Htoken. }
  split; [exact Hhs|].
  unfold New. now rewrite Hhs.
Qed.

(** X3.  [Handshake] dials a websocket only after a negotiation that
    succeeded: if its trace holds a dial, the HTTP request was answered with
    status 200 and a body that was read and parsed to a response whose [ok] is
    true, and the dial is to the URL of that response, with an empty protocol
    and the origin of the Slack API. *)
Theorem Handshake_dials_only_when_ok (b : bot) (url protocol origin : string) :
  In (WebsocketDial url protocol origin) (fst (fst (Handshake b))) ->
  exists res body response,
    http_Get (rtm_start (Token b)) = Some res
    /\ StatusCode res = 200%Z
    /\ Body res = Some body
    /\ json_Unmarshal body = Some response
    /\ Ok response = true
    /\ url = URL response /\ protocol = "" /\ origin = slack_origin.
Proof.
  unfold Handshake.
  destruct (http_Get (rtm_start (Token b))) as [res|] eqn:Hget;
    [|simpl; intros [H|[]]; discriminate H].
  destruct (StatusCode res =? 200)%Z eqn:Hcode;
    [|simpl; intros [H|[]]; discriminate H].
  apply Z.eqb_eq in Hcode. cbn [negb].
  destruct (Body res) as [body|] eqn:Hbody;
    [|simpl; intros [H|[]]; discriminate H].
  destruct (json_Unmarshal body) as [response|] eqn:Hjson;
    [|simpl; intros [H|[]]; discriminate H].
  destruct (Ok response) eqn:Hok;
    [|simpl; intros [H|[]]; discriminate H].
  cbn [negb].
  assert (Hdial : In (WebsocketDial url protocol origin)
                     [HTTPGet (rtm_start (Token b));
                      WebsocketDial (URL response) "" slack_origin : event] ->
                  url = URL response /\ protocol = "" /\ origin = slack_origin).
  { intros [H|[H|[]]]; [discriminate H|]. injection H as <- <- <-. auto. }
  intros Hin. exists res, body, response.
  repeat (split; [first [reflexivity | assumption]|]). apply Hdial.
  revert Hin.
  destruct (websocket_Dial (URL response) "" "https://api.slack.com/");
    intros Hin; exact Hin.
Qed.

(** X4.  The failures before the dial leave the receiver as it was and make
    the HTTP request only.  The error says which step failed: no answer
    ([Failed to connect to Slack RTM API]), a status other than 200
    ([Failed with HTTP Code:] and the code in decimal), a body that cannot be
    read ([Failed to read body from response]), or a body that is not the
    JSON of a response ([Failed to unmarshal JSON:] and the body). *)
Theorem Handshake_transport_errors (b : bot) :
  let get : list event := [HTTPGet (rtm_start (Token b))] in
  (http_Get (rtm_start (Token b)) = None ->
   Handshake b = (get, b, Some "Failed to connect to Slack RTM API"))
  /\ (forall res,
        http_Get (rtm_start (Token b)) = Some res ->
        StatusCode res <> 200%Z ->
        Handshake b
        = (get, b, Some ("Failed with HTTP Code: " ++ fmt_d (StatusCode res))%string))
  /\ (forall res,
        http_Get (rtm_start (Token b)) = Some res ->
        StatusCode res = 200%Z ->
        Body res = None ->
        Handshake b = (get, b, Some "Failed to read body from response"))
  /\ (forall res body,
        http_Get (rtm_start (Token b)) = Some res ->
        StatusCode res = 200%Z ->
        Body res = Some body ->
        json_Unmarshal body = None ->
        Handshake b = (get, b, Some ("Failed to unmarshal JSON: " ++ body)%string)).
Proof.
  intros get. unfold Handshake. repeat split.
  - now intros ->.
  - intros res -> Hcode. apply Z.eqb_neq in Hcode. now rewrite Hcode.
  - now intros res -> -> ->.
  - now intros res body -> -> -> ->.
Qed.

Lemma Handshake_frame (b b' : bot) (tr : list event) (err : option error) :
  Handshake b = (tr, b', err) ->
  Token b' = Token b
  /\ Commands b' = Commands b
  /\ Listeners b' = Listeners b
  /\ Prefix b' = Prefix b
  /\ (err = None -> exists socket, Socket b' = Some socket)
  /\ (err <> None -> b' = b \/ Socket b' = None).
Proof.
  unfold Handshake.
  destruct (http_Get (rtm_start (Token b))) as [res|];
    [|intros [= <- <- <-]; repeat split; (discriminate || auto)].
  destruct (negb (StatusCode res =? 200)%Z);
    [intros [= <- <- <-]; repeat split; (discriminate || auto)|].
  destruct (Body res) as [body|];
    [|intros [= <- <- <-]; repeat split; (discriminate || auto)].
  destruct (json_Unmarshal body) as [response|];
    [|intros [= <- <- <-]; repeat split; (discriminate || auto)].
  destruct (negb (Ok response));
    [intros [= <- <- <-]; repeat split; (discriminate || auto)|].
  destruct (websocket_Dial (URL response) "" "https://api.slack.com/") as [socket|];
    intros [= <- <- <-]; repeat split;
    first [discriminate | now intros _; right | now intros _; exists socket
          | congruence | auto].
Qed.

(** X5.  Whatever the network answers, [Handshake] keeps the token, the
    registries and the prefix of the receiver; a nil error comes with a
    socket that is not nil; and after an error the receiver is as it was or
    has a nil socket. *)
Theorem Handshake_keeps_registrations (b b' : bot) (tr : list event)
    (err : option error) :
  Handshake b = (tr, b', err) ->
  Token b' = Token b
  /\ Commands b' = Commands b
  /\ Listeners b' = Listeners b
  /\ Prefix b' = Prefix b
  /\ (err = None -> exists socket, Socket b' = Some socket)
  /\ (err <> None -> b' = b \/ Socket b' = None).
Proof.
  apply Handshake_frame.
Qed.

(** X6.  [New] returns a bot or an error, never both and never neither.  The
    bot it returns holds the token it was given, the prefix [!], empty
    registries and a socket that is not nil. *)
Theorem New_bot_or_error (token : string) :
  (exists tr b socket,
     New Handler ListenerHandler MatchInterface token = (tr, (Some b, None))
     /\ Token b = token /\ Prefix b = "!"
     /\ Commands b = [] /\ Listeners b = []
     /\ Socket b = Some socket)
  \/ (exists tr err,
        New Handler ListenerHandler MatchInterface token = (tr, (None, Some err))).
Proof.
  unfold New.
  destruct (Handshake (mkBot None token "" [] [] "!" : bot))
    as [[tr b'] [err|]] eqn:Hhs.
  - right. now exists tr, err.
  - left. apply Handshake_frame in Hhs.
    destruct Hhs as (Htoken & Hcmds & Hlsts & Hprefix & Hsocket & _).
    destruct (Hsocket eq_refl) as [socket Hs].
    exists tr, b', socket. repeat split; assumption.
Qed.

(** ** Registration and the passes *)

Lemma bind_assoc {E A B C} (m : Outcome E A) (f : A -> Outcome E B)
    (g : B -> Outcome E C) :
  bind (bind m f) g = bind m (fun a => bind (f a) g).
Proof.
  destruct m as [tr a|tr]; simpl; [|reflexivity].
  destruct (f a) as [tr1 x|tr1]; simpl; [|reflexivity].
  destruct (g x) as [tr2 y|tr2]; simpl; now rewrite app_assoc.
Qed.

Lemma searchCommand_from_socket (b b' : bot) (msg : Message)
    (cmds : list command) (c : bool) :
  Socket b = Socket b' ->
  searchCommand_from b msg cmds c = searchCommand_from b' msg cmds c.
Proof.
  intros Hs. revert c. induction cmds as [|cmd rest IH]; intros c; simpl;
    [reflexivity|].
  destruct (cmd_Match cmd (Text msg)); [|apply IH].
  now rewrite Hs, IH.
Qed.

Lemma searchListener_from_socket (b b' : bot) (msg : Message)
    (lsts : list listener) (l : bool) :
  Socket b = Socket b' ->
  searchListener_from b msg lsts l = searchListener_from b' msg lsts l.
Proof.
  intros Hs. revert l. induction lsts as [|lst rest IH]; intros l; simpl;
    [reflexivity|].
  destruct (regexp_Compile (lst_Get lst)) as [r|]; [|reflexivity].
  destruct (MatchString r (Message_field msg)); [|apply IH].
  now rewrite Hs, IH.
Qed.

Lemma searchListener_from_app (b : bot) (msg : Message)
    (lsts1 lsts2 : list listener) (l : bool) :
  searchListener_from b msg (lsts1 ++ lsts2) l
  = (l' <- searchListener_from b msg lsts1 l ;;
     searchListener_from b msg lsts2 l').
Proof.
  revert l. induction lsts1 as [|lst rest IH]; intros l; cbn [app searchListener_from].
  - unfold ret. simpl. now destruct (searchListener_from b msg lsts2 l).
  - destruct (regexp_Compile (lst_Get lst)) as [r|]; [|reflexivity].
    destruct (MatchString r (Message_field msg)); [|apply IH].
    rewrite IH, !bind_assoc. reflexivity.
Qed.

Lemma matching_commands_app (cmds1 cmds2 : list command) (text : string) :
  matching_commands (cmds1 ++ cmds2) text
  = matching_commands cmds1 text ++ matching_commands cmds2 text.
Proof.
  induction cmds1 as [|cmd rest IH]; simpl; [reflexivity|].
  destruct (cmd_Match cmd text); simpl; now rewrite IH.
Qed.

Lemma matching_commands_none (cmds : list command) (text : string) :
  matching_commands cmds text = [] <-> existsb (is_match text) cmds = false.
Proof.
  induction cmds as [|cmd rest IH]; simpl; [split; reflexivity|].
  unfold is_match at 1. destruct (cmd_Match cmd text); simpl; [|exact IH].
  split; discriminate.
Qed.

Lemma searchCommand_eq (b : bot) (msg : Message) :
  searchCommand b msg
  = Returned (flat_map (invoke b msg) (matching_commands (Commands b) (Text msg)))
             (existsb (is_match (Text msg)) (Commands b)).
Proof.
  unfold searchCommand. rewrite searchCommand_from_spec. simpl. f_equal.
  destruct (matching_commands (Commands b) (Text msg)) eqn:Hms.
  - apply matching_commands_none in Hms. now rewrite Hms.
  - destruct (existsb (is_match (Text msg)) (Commands b)) eqn:Hex; [reflexivity|].
    apply matching_commands_none in Hex. congruence.
Qed.

Lemma invoke_socket (b b' : bot) (msg : Message) :
  Socket b = Socket b' ->
  forall cm : command * MatchInterface, invoke b msg cm = invoke b' msg cm.
Proof.
  intros Hs cm. unfold invoke. now rewrite Hs.
Qed.

Lemma call_keeps (r : Registration Handler ListenerHandler MatchInterface) (b : bot) :
  Socket (call pattern_Match r b) = Socket b
  /\ Token (call pattern_Match r b) = Token b
  /\ ID (call pattern_Match r b) = ID b
  /\ (exists cmds, Commands (call pattern_Match r b) = Commands b ++ cmds)
  /\ (exists lsts, Listeners (call pattern_Match r b) = Listeners b ++ lsts).
Proof.
  destruct r; simpl; repeat split;
    first [now eexists | now exists []; rewrite app_nil_r].
Qed.

Lemma calls_keep
    (rs : list (Registration Handler ListenerHandler MatchInterface)) (b : bot) :
  Socket (calls pattern_Match rs b) = Socket b
  /\ Token (calls pattern_Match rs b) = Token b
  /\ ID (calls pattern_Match rs b) = ID b
  /\ (exists cmds, Commands (calls pattern_Match rs b) = Commands b ++ cmds)
  /\ (exists lsts, Listeners (calls pattern_Match rs b) = Listeners b ++ lsts).
Proof.
  revert b. induction rs as [|r rest IH]; intros b; unfold calls; cbn [fold_left].
  - repeat split; exists []; now rewrite app_nil_r.
  - fold (calls pattern_Match rest (call pattern_Match r b)).
    destruct (IH (call pattern_Match r b))
      as (Hs & Ht & Hi & (cmds & Hc) & (lsts & Hl)).
    destruct (call_keeps r b) as (Hs' & Ht' & Hi' & (cmds' & Hc') & (lsts' & Hl')).
    repeat split; try congruence.
    + exists (cmds' ++ cmds). now rewrite Hc, Hc', app_assoc.
    + exists (lsts' ++ lsts). now rewrite Hl, Hl', app_assoc.
Qed.

(** X7.  The registration API only appends: after any sequence of calls of
    [Command], [Hear], [RegisterCommand], [RegisterListener] and [SetPrefix],
    the commands and the listeners registered before are still there, first
    and in their order, and the socket, the token and the identity of the bot
    are what they were. *)
Theorem registrations_append_only
    (rs : list (Registration Handler ListenerHandler MatchInterface)) (b : bot) :
  Socket (calls pattern_Match rs b) = Socket b
  /\ Token (calls pattern_Match rs b) = Token b
  /\ ID (calls pattern_Match rs b) = ID b
  /\ (exists cmds, Commands (calls pattern_Match rs b) = Commands b ++ cmds)
  /\ (exists lsts, Listeners (calls pattern_Match rs b) = Listeners b ++ lsts).
Proof.
  apply calls_keep.
Qed.

(** X8.  Registering a command adds one step at the end of the command pass:
    the pass does what it did before, then invokes the new command if its
    pattern matches the text, and returns true if it did before or the new
    command matches. *)
Theorem searchCommand_after_RegisterCommand (cmd : command) (b : bot)
    (msg : Message) :
  searchCommand (RegisterCommand cmd b) msg
  = Returned
      (trace_of (searchCommand b msg)
       ++ match cmd_Match cmd (Text msg) with
          | Some match_ => cmd_Handle cmd (NewConversation match_ msg (Socket b))
          | None => []
          end)
      (existsb (is_match (Text msg)) (Commands b) || is_match (Text msg) cmd).
Proof.
  rewrite !searchCommand_eq. cbn [RegisterCommand Commands trace_of].
  rewrite matching_commands_app, flat_map_app, existsb_app. cbn [existsb].
  rewrite orb_false_r.
  assert (Hold : flat_map (invoke (RegisterCommand cmd b) msg)
                          (matching_commands (Commands b) (Text msg))
                 = flat_map (invoke b msg)
                            (matching_commands (Commands b) (Text msg))).
  { apply flat_map_ext. intros cm. now apply invoke_socket. }
  rewrite Hold. do 2 f_equal.
  cbn [matching_commands]. destruct (cmd_Match cmd (Text msg)); simpl;
    [now rewrite app_nil_r | reflexivity].
Qed.

(** X9.  Registration never takes a handler away from a message: after any
    sequence of registration calls the command pass starts with exactly what
    it did before, and a message that matched a command still does. *)
Theorem searchCommand_after_calls
    (rs : list (Registration Handler ListenerHandler MatchInterface)) (b : bot)
    (msg : Message) :
  (exists more,
     trace_of (searchCommand (calls pattern_Match rs b) msg)
     = trace_of (searchCommand b msg) ++ more)
  /\ (value_of (searchCommand b msg) = Some true ->
      value_of (searchCommand (calls pattern_Match rs b) msg) = Some true).
Proof.
  destruct (calls_keep rs b) as (Hs & _ & _ & (cmds & Hc) & _).
  rewrite !searchCommand_eq, Hc. cbn [trace_of value_of].
  rewrite matching_commands_app, flat_map_app, existsb_app. split.
  - eexists. f_equal. apply flat_map_ext. intros cm. now apply invoke_socket.
  - intros [= ->]. reflexivity.
Qed.

(** X10.  Registering a listener adds one step at the end of the listener
    pass.  If the pass panicked before, it panics as before, at the same
    point.  If it returned, the new pass does the same and then comes to the
    new listener: it panics there if the string does not compile, and
    otherwise invokes the listener if it fires and returns true if the old
    pass did or the listener fires. *)
Theorem searchListener_after_RegisterListener (lst : listener) (b : bot)
    (msg : Message) :
  (forall tr,
     searchListener b msg = Panicked tr ->
     searchListener (RegisterListener lst b) msg = Panicked tr)
  /\ (forall tr l,
        searchListener b msg = Returned tr l ->
        regexp_Compile (lst_Get lst) = None ->
        searchListener (RegisterListener lst b) msg = Panicked tr)
  /\ (forall tr l r,
        searchListener b msg = Returned tr l ->
        regexp_Compile (lst_Get lst) = Some r ->
        searchListener (RegisterListener lst b) msg
        = Returned
            (tr ++ if MatchString r (Message_field msg)
                   then listener_events b msg lst else [])
            (l || MatchString r (Message_field msg))).
Proof.
  assert (Heq : searchListener (RegisterListener lst b) msg
                = (l <- searchListener b msg ;; searchListener_from b msg [lst] l)).
  { unfold searchListener. cbn [RegisterListener Listeners].
    rewrite searchListener_from_app.
    rewrite (searchListener_from_socket (RegisterListener lst b) b msg
               (Listeners b) false) by reflexivity.
    destruct (searchListener_from b msg (Listeners b) false) as [tr l|tr];
      [|reflexivity].
    cbn [bind].
    now rewrite (searchListener_from_socket (RegisterListener lst b) b msg
                   [lst] l) by reflexivity. }
  rewrite Heq. repeat split.
  - now intros tr ->.
  - intros tr l -> Hnone. cbn [bind searchListener_from]. rewrite Hnone.
    unfold panic. now rewrite app_nil_r.
  - intros tr l r -> Hsome. cbn [bind searchListener_from]. rewrite Hsome.
    unfold listener_events.
    destruct (MatchString r (Message_field msg)); simpl.
    + now rewrite app_nil_r, orb_true_r.
    + now rewrite orb_false_r.
Qed.

(** X11.  The two registries do not affect each other's pass: registering a
    listener ([RegisterListener], [Hear]) or setting the prefix changes
    neither the command pass nor the help, and registering a command
    ([RegisterCommand], [Command]) or setting the prefix does not change the
    listener pass. *)
Theorem registries_are_separate (b : bot) (msg : Message) :
  (forall lst : listener,
     searchCommand (RegisterListener lst b) msg = searchCommand b msg
     /\ sendHelp (RegisterListener lst b) msg = sendHelp b msg)
  /\ (forall regex (h : ListenerHandler),
        searchCommand (Hear regex h b) msg = searchCommand b msg
        /\ sendHelp (Hear regex h b) msg = sendHelp b msg)
  /\ (forall prefix,
        searchCommand (SetPrefix prefix b) msg = searchCommand b msg
        /\ sendHelp (SetPrefix prefix b) msg = sendHelp b msg
        /\ searchListener (SetPrefix prefix b) msg = searchListener b msg)
  /\ (forall cmd : command,
        searchListener (RegisterCommand cmd b) msg = searchListener b msg)
  /\ (forall cmd (h : Handler),
        searchListener (Command pattern_Match cmd h b) msg = searchListener b msg).
Proof.
  repeat split; intros;
    first [ apply searchCommand_from_socket; reflexivity
          | apply searchListener_from_socket; reflexivity
          | reflexivity ].
Qed.

(** X12.  A message that is not bot-addressed never reaches the commands:
    whatever command is registered, [process] does for such a message what it
    did without it. *)
Theorem process_ignores_commands (cmd : command) (b : bot) (m : Message) :
  IsBotMessage (Prefix b) (ID b) m = false ->
  process (RegisterCommand cmd b) m = process b m.
Proof.
  intros Hbot. rewrite !process_unfold. cbn [RegisterCommand Prefix ID].
  rewrite Hbot. f_equal.
  apply searchListener_from_socket. reflexivity.
Qed.

Lemma compiles_or_broken (lsts : list listener) :
  Forall compiles lsts \/ Exists broken_listener lsts.
Proof.
  induction lsts as [|lst rest [IH|IH]].
  - left. constructor.
  - destruct (regexp_Compile (lst_Get lst)) as [r|] eqn:Hr.
    + left. constructor; [unfold compiles; congruence | exact IH].
    + right. now left.
  - right. now right.
Qed.

Lemma broken_not_compiles (lsts : list listener) :
  Exists broken_listener lsts -> ~ Forall compiles lsts.
Proof.
  intros Hex Hall. apply Exists_exists in Hex. destruct Hex as (lst & Hin & Hb).
  rewrite Forall_forall in Hall. exact (Hall lst Hin Hb).
Qed.

Lemma searchListener_panics_iff (b : bot) (msg : Message) :
  value_of (searchListener b msg) = None <-> Exists broken_listener (Listeners b).
Proof.
  split.
  - intros Hnone. destruct (compiles_or_broken (Listeners b)) as [Hall|Hex];
      [|exact Hex].
    rewrite (searchListener_spec b msg Hall) in Hnone. discriminate.
  - apply searchListener_from_panics.
Qed.

(** X13.  The listener pass returns a boolean exactly when every registered
    listener string compiles, whatever the message: one string that does not
    compile makes the pass panic on every message, also on those no listener
    would fire on. *)
Theorem searchListener_returns_iff_all_compile (b : bot) (msg : Message) :
  (exists l, value_of (searchListener b msg) = Some l)
  <-> Forall compiles (Listeners b).
Proof.
  split.
  - intros [l Hl]. destruct (compiles_or_broken (Listeners b)) as [Hall|Hex];
      [exact Hall|].
    apply (searchListener_panics_iff b msg) in Hex. congruence.
  - intros Hall. rewrite (searchListener_spec b msg Hall). simpl. eauto.
Qed.

(** X14.  [process] panics exactly when it gets as far as the listener pass
    (the message is not bot-addressed, or it is, asks for no help and matches
    no command) and some registered listener string does not compile.  A
    help request and a message that matches a command are served even then. *)
Theorem process_panics_iff (b : bot) (m : Message) :
  value_of (process b m) = None
  <-> reaches_listeners b m = true /\ Exists broken_listener (Listeners b).
Proof.
  assert (Hpass : forall msg,
            value_of (searchListener b msg ;;; ret tt) = None
            <-> Exists broken_listener (Listeners b)).
  { intros msg. rewrite <- (searchListener_panics_iff b msg).
    destruct (searchListener b msg); simpl; split; intros H;
      first [discriminate H | reflexivity]. }
  rewrite process_unfold. unfold reaches_listeners.
  destruct (IsBotMessage (Prefix b) (ID b) m).
  - destruct (IsHelpRequest (stripped b m)).
    + rewrite sendHelp_eq. simpl. split; [discriminate | intros [H _]; discriminate H].
    + rewrite searchCommand_eq.
      destruct (existsb (is_match (Text (stripped b m))) (Commands b)) eqn:Hex.
      * cbn [bind ret negb andb value_of].
        split; [discriminate | intros [H _]; discriminate H].
      * apply matching_commands_none in Hex. rewrite Hex. cbn [flat_map].
        rewrite bind_nil_false, Hpass. simpl. apply and_true_iff.
  - rewrite Hpass. apply and_true_iff.
Qed.

(** ** More on the help *)

Lemma help_lines_In (cmd : command) (cmds : list command) :
  In cmd cmds ->
  exists before after,
    help_lines cmds = (before ++ help_line cmd ++ after)%string.
Proof.
  induction cmds as [|c rest IH]; intros Hin; [contradiction|].
  destruct Hin as [->|Hin].
  - exists EmptyString, (help_lines rest). reflexivity.
  - destruct (IH Hin) as (before & after & Heq).
    exists (help_line c ++ before)%string, after.
    cbn [help_lines]. now rewrite Heq, append_assoc.
Qed.

(** X15.  The help leaves no command out: for every registered command, the
    text that [sendHelp] sends contains the line of that command, its pattern
    between backquotes (and its description, when it has one) closed by a
    line feed. *)
Theorem sendHelp_lists_every_command (b : bot) (msg : Message) (cmd : command) :
  In cmd (Commands b) ->
  exists before after,
    sendHelp b msg
    = Returned
        [JSONSend (Socket b)
           (SetText (before ++ help_line cmd ++ after) msg)] tt
    /\ exists rest, help_line cmd = ("`" ++ cmd_Text cmd ++ "`" ++ rest)%string.
Proof.
  intros Hin. destruct (help_lines_In cmd (Commands b) Hin) as (before & after & Heq).
  exists (mention msg ++ help_intro ++ before)%string, after. split.
  - rewrite sendHelp_eq. unfold help_text. rewrite Heq.
    now rewrite !append_assoc.
  - unfold help_line. eexists. reflexivity.
Qed.

(** X16.  Registration only adds to the help: after [RegisterCommand] the
    text is the text before followed by the line of the new command, and
    after any sequence of registration calls the text before is a prefix of
    the text after. *)
Theorem help_after_registration (b : bot) (msg : Message) :
  (forall cmd : command,
     help_text (RegisterCommand cmd b) msg
     = (help_text b msg ++ help_line cmd)%string)
  /\ (forall rs : list (Registration Handler ListenerHandler MatchInterface),
        exists more,
          help_text (calls pattern_Match rs b) msg
          = (help_text b msg ++ more)%string).
Proof.
  split.
  - intros cmd. unfold help_text. cbn [RegisterCommand Commands].
    rewrite help_lines_app. cbn [help_lines].
    now rewrite append_nil_r, !append_assoc.
  - intros rs. destruct (calls_keep rs b) as (_ & _ & _ & (cmds & Hc) & _).
    exists (help_lines cmds). unfold help_text.
    now rewrite Hc, help_lines_app, !append_assoc.
Qed.

(** ** More on the receive loop *)

Lemma Listen_from_step (b : bot) (recv : nat -> Receive) (fuel i : nat)
    (st : state) :
  Listen_from b recv (S fuel) i st
  = Listen_from b recv fuel (S i)
      (if err_is_nil (recv i)
       then {| ls_msg := Message_zero;
               ls_started :=
                 ls_started st ++ [GoProcess b (received (recv i) (ls_msg st))] |}
       else {| ls_msg := received (recv i) (ls_msg st);
               ls_started := ls_started st |}).
Proof.
  cbn [Listen_from]. unfold Listen_body. now destruct (err_is_nil (recv i)).
Qed.

Lemma Listen_from_started (b : bot) (recv : nat -> Receive) (n i : nat)
    (st : state) :
  exists st' more,
    Listen_from b recv n i st = Running st'
    /\ ls_started st' = ls_started st ++ more
    /\ List.length more = delivered recv n i
    /\ Forall (fun unit => exists msg, unit = GoProcess b msg) more.
Proof.
  revert i st. induction n as [|n IH]; intros i st.
  - exists st, []. cbn. rewrite app_nil_r. repeat split. constructor.
  - rewrite Listen_from_step. cbn [delivered].
    destruct (err_is_nil (recv i));
      match goal with
      | |- context [Listen_from b recv n (S i) ?s] =>
        destruct (IH (S i) s) as (st' & more & Hrun & Hstarted & Hlen & Hall)
      end; cbn [ls_started] in Hstarted.
    + exists st', (GoProcess b (received (recv i) (ls_msg st)) :: more).
      repeat split; [exact Hrun | | cbn; now rewrite Hlen |].
      * now rewrite Hstarted, <- app_assoc.
      * constructor; [eauto | exact Hall].
    + exists st', more. repeat split; assumption.
Qed.

Lemma Listen_from_plus (b : bot) (recv : nat -> Receive) (n k i : nat)
    (st st' : state) :
  Listen_from b recv n i st = Running st' ->
  Listen_from b recv (n + k) i st = Listen_from b recv k (n + i) st'.
Proof.
  revert i st. induction n as [|n IH]; intros i st.
  - cbn. now intros [= ->].
  - rewrite Nat.add_succ_l, !Listen_from_step. intros Hrun.
    rewrite (IH _ _ Hrun). now rewrite Nat.add_succ_r.
Qed.

(** X17.  After [n] iterations [Listen] has started one goroutine for every
    receive that returned a nil error and none for the others, each of them
    [process] of this bot; and the goroutines started after [n] iterations
    are still the first ones [k] iterations later. *)
Theorem Listen_starts_one_per_delivery (b : bot) (recv : nat -> Receive)
    (n k : nat) :
  exists st st' more,
    Listen b recv n = Running st
    /\ List.length (ls_started st) = delivered recv n 0
    /\ Forall (fun unit => exists msg, unit = GoProcess b msg) (ls_started st)
    /\ Listen b recv (n + k) = Running st'
    /\ ls_started st' = ls_started st ++ more.
Proof.
  destruct (Listen_from_started b recv n 0 Listen_start)
    as (st & units & Hrun & Hstarted & Hlen & Hall).
  destruct (Listen_from_started b recv k (n + 0) st)
    as (st' & more & Hrun' & Hstarted' & _ & _).
  cbn [Listen_start ls_started app] in Hstarted.
  exists st, st', more. unfold Listen.
  rewrite (Listen_from_plus b recv n k 0 Listen_start Hrun).
  rewrite Hstarted. repeat split; try assumption.
  now rewrite <- Hstarted.
Qed.

Lemma Listen_from_all_delivered (b : bot) (recv : nat -> Receive) (n i : nat)
    (units : list (Spawned Handler ListenerHandler MatchInterface)) :
  (forall j, i <= j < i + n -> err_is_nil (recv j) = true) ->
  Listen_from b recv n i {| ls_msg := Message_zero; ls_started := units |}
  = Running
      {| ls_msg := Message_zero;
         ls_started :=
           units ++ map (fun j => GoProcess b (received (recv j) Message_zero))
                        (seq i n) |}.
Proof.
  revert i units. induction n as [|n IH]; intros i units Hok.
  - cbn. now rewrite app_nil_r.
  - rewrite Listen_from_step, Hok by (split; [apply Nat.le_refl|]; 
      rewrite Nat.add_succ_r; apply Nat.lt_succ_r, Nat.le_add_r).
    cbn [ls_msg ls_started]. rewrite IH.
    + cbn [seq map]. now rewrite <- app_assoc.
    + intros j [Hlo Hhi]. apply Hok. split.
      * apply Nat.lt_le_incl. exact Hlo.
      * now rewrite Nat.add_succ_r, <- Nat.add_succ_l.
Qed.

(** X18.  While every receive returns a nil error, every frame is decoded
    into a message that was reset to [Message{}], and [Listen] starts
    [process] once for each, in the order of arrival; after [n] iterations
    the variable [msg] is [Message{}] again. *)
Theorem Listen_processes_every_frame (b : bot) (recv : nat -> Receive) (n : nat) :
  (forall j, j < n -> err_is_nil (recv j) = true) ->
  Listen b recv n
  = Running
      {| ls_msg := Message_zero;
         ls_started :=
           map (fun j => GoProcess b (received (recv j) Message_zero)) (seq 0 n) |}.
Proof.
  intros Hok. unfold Listen, Listen_start.
  rewrite Listen_from_all_delivered; [reflexivity|].
  intros j [_ Hj]. now apply Hok.
Qed.

(** X19.  [msg] is reset only after a receive that succeeded.  When a
    receive fails and the next one succeeds, the frame is decoded over what
    the failed receive left in [msg], and that message is the one
    processed. *)
Theorem Listen_decodes_over_failed_receive (b : bot) (recv : nat -> Receive)
    (i : nat) (st : state) :
  err_is_nil (recv i) = false ->
  err_is_nil (recv (S i)) = true ->
  Listen_from b recv 2 i st
  = Running
      {| ls_msg := Message_zero;
         ls_started :=
           ls_started st
           ++ [GoProcess b (received (recv (S i)) (received (recv i) (ls_msg st)))] |}.
Proof.
  intros Hfail Hok. rewrite !Listen_from_step, Hfail, Hok. reflexivity.
Qed.

(** ** More on listeners *)

(** The two setters of a listener are independent and the last write
    wins: [Set] keeps the handler and [SetHandler] keeps the regex, they
    commute, a second [Set] or [SetHandler] replaces the first, and a
    listener on which both were called is the one [NewListener] builds. *)
Lemma Listener_setters (c : Listener ListenerHandler) (r r' : string)
    (h h' : ListenerHandler) :
  Listener_Get (Listener_SetHandler h c) = Listener_Get c
  /\ handler (Listener_Set r c) = handler c
  /\ Listener_Set r (Listener_SetHandler h c)
     = Listener_SetHandler h (Listener_Set r c)
  /\ Listener_Set r' (Listener_Set r c) = Listener_Set r' c
  /\ Listener_SetHandler h' (Listener_SetHandler h c) = Listener_SetHandler h' c
  /\ Listener_SetHandler h (Listener_Set r c) = NewListener r h.
Proof.
  repeat split.
Qed.

(** ** The text the listener pass reads *)




End HanuTheory.

(** * The interfaces, implemented *)

(** ** The message type of the specification keeps the raw text *)

Lemma SpecMessage_StripMention_raw (botID : string) (x : SpecMessage.t) :
  SpecMessage.raw (SpecMessage.StripMention botID x) = SpecMessage.raw x.
Proof.
  unfold SpecMessage.StripMention.
  now destruct (String.index 0 (SpecMessage.mention_token botID) (SpecMessage.derived x)).
Qed.

Lemma SpecMessage_StripLinkMarkup_raw (x : SpecMessage.t) :
  SpecMessage.raw (SpecMessage.StripLinkMarkup x) = SpecMessage.raw x.
Proof. reflexivity. Qed.

Lemma SpecMessage_StripPrefix_raw (prefix : string) (x : SpecMessage.t) :
  SpecMessage.raw (SpecMessage.StripPrefix prefix x) = SpecMessage.raw x.
Proof.
  unfold SpecMessage.StripPrefix.
  now destruct (String.prefix prefix (SpecMessage.derived x)).
Qed.


(** ** The dispatcher on concrete messages *)

Local Open Scope outcome_scope.

(** Both commands registered for [hello] are invoked, in registration
    order. *)
Example hello_starts_both_handlers :
  process Demo.registered (Demo.in_channel "!hello")
  = Returned
      [GoHandler "greet"
         (NewConversation [] (SpecMessage.mk "!hello" "hello" "U9" "C1" false) (Some tt));
       GoHandler "again"
         (NewConversation [] (SpecMessage.mk "!hello" "hello" "U9" "C1" false) (Some tt))]
      tt.
Proof. reflexivity. Qed.

(** The listener registered for [foo] fires on a text that contains it. *)
Example foo_fires_inside_the_text :
  process Demo.registered (Demo.in_channel "xx foo yy")
  = Returned
      [LogPrintf ("Listener Matched: xx foo yy" ++ nl);
       GoListenerHandler (Some "on_foo")
         (NewListenerConversation
            (SpecMessage.mk "xx foo yy" "xx foo yy" "U9" "C1" false) (Some tt))]
      tt.
Proof. reflexivity. Qed.

(** A command that matches keeps the message from the listeners; the same
    word outside a bot-addressed message reaches them. *)
Example command_before_listener :
  process Demo.both (Demo.in_channel "!foo")
  = Returned
      [GoHandler "cmd_foo"
         (NewConversation [] (SpecMessage.mk "!foo" "foo" "U9" "C1" false) (Some tt))]
      tt
  /\ process Demo.both (Demo.in_channel "foo")
     = Returned
         [LogPrintf ("Listener Matched: foo" ++ nl);
          GoListenerHandler (Some "on_foo")
            (NewListenerConversation
               (SpecMessage.mk "foo" "foo" "U9" "C1" false) (Some tt))]
         tt.
Proof. split; reflexivity. Qed.

(** The help, asked for in a channel. *)
Example help_in_a_channel :
  process Demo.registered (Demo.in_channel "!help")
  = Returned
      [JSONSend (Some tt)
         (SpecMessage.mk "!help"
            ("<@U9>: I can support you with those features:" ++ nl ++ nl
             ++ "`hello`" ++ nl
             ++ "`hello`" ++ nl
             ++ "`status` *–* the state of the bot" ++ nl)
            "U9" "C1" false)]
      tt.
Proof. reflexivity. Qed.

(** A help request, a command and a text for the listeners, each sent to the
    bot in a channel. *)
Lemma process_bot_message_witness :
  process Demo.registered (Demo.in_channel "!help")
  = sendHelp Demo.registered
             (stripped Demo.registered (Demo.in_channel "!help"))
  /\ process Demo.registered (Demo.in_channel "!hello")
     = Returned
         (trace_of (searchCommand Demo.registered
                      (stripped Demo.registered (Demo.in_channel "!hello"))))
         tt
  /\ process Demo.registered (Demo.in_channel "!xx foo yy")
     = (searchListener Demo.registered
          (stripped Demo.registered (Demo.in_channel "!xx foo yy")) ;;; ret tt).
Proof.
  split; [|split].
  - exact (proj1 (proj1 (process_bot_message Demo.registered
                           (Demo.in_channel "!help") eq_refl) eq_refl)).
  - refine (proj1 (proj2 (proj1 (proj2 (process_bot_message Demo.registered
                                          (Demo.in_channel "!hello") eq_refl)
                                   eq_refl) _))).
    discriminate.
  - exact (proj2 (proj2 (proj2 (process_bot_message Demo.registered
                                  (Demo.in_channel "!xx foo yy") eq_refl)
                           eq_refl) eq_refl)).
Defined.

(** Two commands match [hello]: two handlers are started. *)
Lemma searchCommand_all_matches_witness :
  List.length (trace_of (searchCommand Demo.registered (Demo.in_channel "hello")))
  = 2.
Proof.
  refine (eq_trans
            (proj2 (proj2 (proj2 (proj2
               (searchCommand_all_matches literal_Match Demo.registered
                  (Demo.in_channel "hello"))))) _) _).
  - intros cmd Hin. simpl in Hin.
    destruct Hin as [<-|[<-|[<-|[]]]]; eauto.
  - reflexivity.
Defined.

(** The service answers [invalid_auth]. *)
Lemma Handshake_refused_witness :
  New Demo.handler Demo.handler Demo.params "xoxb"
  = ([HTTPGet (rtm_start "xoxb")], (None, Some "invalid_auth")).
Proof.
  exact (proj1 (Handshake_refused Demo.handler Demo.handler Demo.params "xoxb"
                  (res := {| StatusCode := 200; Body := Some RefusingService.body |})
                  (body := RefusingService.body)
                  (response := RefusingService.refusal)
                  eq_refl eq_refl eq_refl eq_refl eq_refl)).
Defined.

(** After a frame that does not decode, the next frame is processed. *)
Lemma Listen_skips_failed_receive_witness :
  err_is_nil (Demo.glitch 0) = false
  /\ Listen Demo.registered Demo.glitch 2
     = Running {| ls_msg := Message_zero;
                  ls_started := [GoProcess Demo.registered (Demo.in_channel "hi")] |}.
Proof.
  split; [reflexivity|].
  destruct (Listen_skips_failed_receive Demo.registered Demo.glitch
              1 0 Listen_start eq_refl)
    as (st' & Hbody & _ & Hnext & _).
  injection Hbody as <-. exact Hnext.
Defined.

(** C5, as the specification states it, fails: on a connection that has
    terminated, where every receive reports an error, [Listen] does not
    return, however long it runs. *)
Lemma Listen_terminated_runs_on :
  (forall i, err_is_nil (Demo.terminated i) = false)
  /\ ~ (exists fuel st, Listen Demo.registered Demo.terminated fuel = Exited st).
Proof.
  split; [reflexivity|].
  intros (fuel & st & H). revert H. apply Listen_from_not_exited.
Qed.

(** C8.  A listener registered with the string [(], which is not a regular
    expression, makes the listener pass panic: [regexp.Compile] returns nil
    and an error, the error is dropped, and [MatchString] is called on the
    nil pointer.  No boolean is returned, and [process] panics with it. *)
Theorem searchListener_invalid_regex_panics :
  regexp_Compile "(" = None
  /\ searchListener Demo.broken (Demo.in_channel "foo") = Panicked []
  /\ value_of (searchListener Demo.broken (Demo.in_channel "foo")) = None
  /\ process Demo.broken (Demo.in_channel "foo") = Panicked [].
Proof.
  repeat split.
Qed.

(** ** The handshake against scripted services *)

(** The service accepts: [New] returns the connected bot. *)
Lemma Handshake_connects_witness :
  New (NA := Scripted.accepting) Demo.handler Demo.handler Demo.params "xoxb"
  = ([HTTPGet (rtm_start "xoxb"); WebsocketDial "wss://example/1" "" slack_origin],
     (Some (mkBot (NA := Scripted.accepting) (Some 7) "xoxb" "U1" [] [] "!"), None)).
Proof.
  exact (proj2 (Handshake_connects (NA := Scripted.accepting)
                  Demo.handler Demo.handler Demo.params "xoxb"
                  (res := {| StatusCode := 200; Body := Some "welcome" |})
                  (body := "welcome") (response := Scripted.welcome) (socket := 7)
                  eq_refl eq_refl eq_refl eq_refl eq_refl eq_refl)).
Defined.

(** The connection cannot be opened: a bot that had a socket has none after
    the call, and has the identity of the response. *)
Lemma Handshake_dial_fails_witness :
  Handshake (NA := Scripted.unreachable)
            (mkBot (NA := Scripted.unreachable) (Some 3) "xoxb" "U0" [] [] "?"
             : Bot Demo.handler Demo.handler Demo.params)
  = ([HTTPGet (rtm_start "xoxb"); WebsocketDial "wss://example/1" "" slack_origin],
     mkBot (NA := Scripted.unreachable) None "xoxb" "U1" [] [] "?",
     Some "Failed to connect to Websocket").
Proof.
  exact (proj1 (Handshake_dial_fails (NA := Scripted.unreachable)
                  Demo.handler Demo.handler Demo.params "xoxb"
                  (res := {| StatusCode := 200; Body := Some "welcome" |})
                  (body := "welcome") (response := Scripted.welcome)
                  eq_refl eq_refl eq_refl eq_refl eq_refl eq_refl)
               (mkBot (NA := Scripted.unreachable) (Some 3) "xoxb" "U0" [] [] "?")
               eq_refl).
Defined.

(** The dial in the trace of an accepted handshake is the one of the
    response. *)
Lemma Handshake_dials_only_when_ok_witness :
  exists res body response,
    http_Get (NetAPI := Scripted.accepting) (rtm_start "xoxb") = Some res
    /\ StatusCode res = 200%Z
    /\ Body res = Some body
    /\ json_Unmarshal (NetAPI := Scripted.accepting) body = Some response
    /\ Ok response = true
    /\ "wss://example/1" = URL response /\ "" = "" /\ slack_origin = slack_origin.
Proof.
  apply (Handshake_dials_only_when_ok (NA := Scripted.accepting)
           (mkBot (NA := Scripted.accepting) None "xoxb" "" [] [] "!"
            : Bot Demo.handler Demo.handler Demo.params)
           "wss://example/1" "" slack_origin).
  right. left. reflexivity.
Defined.

(** Status 404: the code is in the error. *)
Lemma Handshake_transport_errors_witness :
  Handshake (NA := Scripted.missing)
            (mkBot (NA := Scripted.missing) None "xoxb" "" [] [] "!"
             : Bot Demo.handler Demo.handler Demo.params)
  = ([HTTPGet (rtm_start "xoxb")],
     mkBot (NA := Scripted.missing) None "xoxb" "" [] [] "!",
     Some "Failed with HTTP Code: 404").
Proof.
  refine (proj1 (proj2 (Handshake_transport_errors (NA := Scripted.missing)
                          (mkBot (NA := Scripted.missing) None "xoxb" "" [] [] "!"
                           : Bot Demo.handler Demo.handler Demo.params)))
                {| StatusCode := 404; Body := Some "welcome" |} eq_refl _).
  discriminate.
Defined.

(** The bot connected by the accepting service kept what it had
    registered. *)
Lemma Handshake_keeps_registrations_witness :
  Commands (mkBot (NA := Scripted.accepting) (Some 7) "xoxb" "U1"
                  [NewCommand literal_Match "hello" "" "greet"] [] "?"
            : Bot Demo.handler Demo.handler Demo.params)
  = [NewCommand literal_Match "hello" "" "greet"].
Proof.
  exact (proj1 (proj2
           (Handshake_keeps_registrations (NA := Scripted.accepting)
              (mkBot (NA := Scripted.accepting) None "xoxb" ""
                     [NewCommand literal_Match "hello" "" "greet"] [] "?"
               : Bot Demo.handler Demo.handler Demo.params)
              (b' := mkBot (NA := Scripted.accepting) (Some 7) "xoxb" "U1"
                           [NewCommand literal_Match "hello" "" "greet"] [] "?")
              (tr := [HTTPGet (rtm_start "xoxb");
                      WebsocketDial "wss://example/1" "" slack_origin])
              (err := None) eq_refl))).
Defined.

(** ** Registration and the passes on the bot *)

(** A message that matched [hello] still does after two more
    registrations. *)
Lemma searchCommand_after_calls_witness :
  value_of (searchCommand
              (calls literal_Match
                     [CallHear "bar" "on_bar"; CallCommand "bye" "on_bye"]
                     Demo.registered)
              (Demo.in_channel "hello"))
  = Some true.
Proof.
  exact (proj2 (searchCommand_after_calls literal_Match
                  [CallHear "bar" "on_bar"; CallCommand "bye" "on_bye"]
                  Demo.registered (Demo.in_channel "hello"))
               eq_refl).
Defined.

(** A listener string that does not compile, registered last: the listeners
    before it are served, then the pass panics. *)
Lemma searchListener_after_RegisterListener_witness :
  searchListener (Hear "(" "on_paren" Demo.registered) (Demo.in_channel "xx foo yy")
  = Panicked
      [LogPrintf ("Listener Matched: xx foo yy" ++ nl);
       GoListenerHandler (Some "on_foo")
         (NewListenerConversation (Demo.in_channel "xx foo yy") (Some tt))].
Proof.
  exact (proj1 (proj2 (searchListener_after_RegisterListener
                         (Listener_interface (NewListener "(" "on_paren"))
                         Demo.registered (Demo.in_channel "xx foo yy")))
               _ true eq_refl eq_refl).
Defined.

(** A message that is not bot-addressed, and a command for its text. *)
Lemma process_ignores_commands_witness :
  process (RegisterCommand (NewCommand literal_Match "plain" "" "on_plain")
                           Demo.registered)
          (Demo.in_channel "plain")
  = process Demo.registered (Demo.in_channel "plain").
Proof.
  exact (process_ignores_commands
           (NewCommand literal_Match "plain" "" "on_plain")
           Demo.registered (Demo.in_channel "plain") eq_refl).
Defined.

(** The pass returned, so the listener strings compile. *)
Lemma searchListener_returns_iff_all_compile_witness :
  Forall compiles (Listeners Demo.registered).
Proof.
  apply (proj1 (searchListener_returns_iff_all_compile
                  Demo.registered (Demo.in_channel "foo"))).
  exists true. reflexivity.
Defined.

(** A text for the listeners, sent to the bot with the string that does not
    compile. *)
Lemma process_panics_iff_witness :
  value_of (process Demo.broken (Demo.in_channel "foo")) = None.
Proof.
  apply (proj2 (process_panics_iff Demo.broken (Demo.in_channel "foo"))).
  split; [reflexivity|]. left. reflexivity.
Defined.

(** The command [status] is in the help. *)
Lemma sendHelp_lists_every_command_witness :
  exists before after,
    sendHelp Demo.registered (Demo.in_channel "!help")
    = Returned
        [JSONSend (Some tt)
           (SetText (before ++ help_line Demo.status ++ after)
                    (Demo.in_channel "!help"))] tt.
Proof.
  destruct (sendHelp_lists_every_command Demo.registered (Demo.in_channel "!help")
              Demo.status (or_intror (or_intror (or_introl eq_refl))))
    as (before & after & Hsend & _).
  exists before, after. exact Hsend.
Defined.

(** ** The receive loop on scripted connections *)

(** Two frames, two goroutines. *)
Lemma Listen_processes_every_frame_witness :
  Listen Demo.registered Demo.steady 2
  = Running
      {| ls_msg := Message_zero;
         ls_started := [GoProcess Demo.registered (Demo.in_channel "hi");
                        GoProcess Demo.registered (Demo.in_channel "hi")] |}.
Proof.
  exact (Listen_processes_every_frame Demo.registered Demo.steady
           (n := 2) (fun _ _ => eq_refl)).
Defined.

(** The message processed after the torn frame has the sender that frame
    left behind. *)
Lemma Listen_decodes_over_failed_receive_witness :
  Listen Demo.registered Demo.torn 2
  = Running
      {| ls_msg := Message_zero;
         ls_started :=
           [GoProcess Demo.registered (SpecMessage.mk "hi" "hi" "U7" "C1" false)] |}.
Proof.
  exact (Listen_decodes_over_failed_receive Demo.registered Demo.torn
           0 Listen_start eq_refl eq_refl).
Defined.

(** ** The listener pass and the text of the message *)

(** With the message type of the specification the strips leave the field
    [Message] alone: there the pass reads the text as it was received. *)
Lemma SpecMessage_stripped_raw
    (b : Bot (MA := spec_MessageAPI) Demo.handler Demo.handler Demo.params)
    (m : SpecMessage.t) :
  Message_field (stripped b m) = Message_field m.
Proof.
  unfold stripped. cbn [Message_field StripPrefix StripLinkMarkup StripMention
                        spec_MessageAPI].
  now rewrite SpecMessage_StripPrefix_raw, SpecMessage_StripLinkMarkup_raw,
    SpecMessage_StripMention_raw.
Qed.


